(** * Sequence compilation and mixture loss of [src/finetune.py]

    A shallow embedding of the data collators
    ([DataCollatorForMultiTurnCausalLM], [DataCollatorForMultiTurnMixtureTraining]),
    of the context preparation in [make_data_module] and of [MixtureTrainer]
    ([compute_loss], [log]), with the properties the specification states
    about them.

    Conventions.
    - Python dictionaries are [gmap string _]; a missing key is [KeyError].
    - Exceptions are the [Raise] case of [result].
    - The tokenizer, [pad_sequence], [torch.stack] and the base trainer are
      external; the tokenizer and the base trainer are records / section
      variables, [pad_sequence] and [torch.stack(..).mean()] follow the
      documented behaviour of the library.
    - Scalar losses and [stage2_ratio] are exact rationals ([Qc]); rounding of
      floating-point arithmetic is not modelled. *)

From Stdlib Require Import ZArith QArith Qcanon Lia Ascii.
From stdpp Require Import gmap strings list fin_maps.

Local Open Scope Z_scope.

(** ** Exceptions *)

Inductive exn : Type :=
| NotImplementedError
| AssertionError
| KeyError
| IndexError
| RuntimeError.

Inductive result (A : Type) : Type :=
| Ok (a : A)
| Raise (e : exn).
Arguments Ok {A} a.
Arguments Raise {A} e.

#[global] Instance result_ret : MRet result := @Ok.
#[global] Instance result_bind : MBind result := fun A B f r =>
  match r with
  | Ok a => f a
  | Raise e => Raise e
  end.

(** [d[k]] on a dictionary. *)
Definition getitem {V : Type} (d : gmap string V) (k : string) : result V :=
  match d !! k with
  | Some v => Ok v
  | None => Raise KeyError
  end.

(** ** Data model *)

(** [IGNORE_INDEX = -100] *)
Definition IGNORE_INDEX : Z := -100.

(** A turn is a dictionary with the keys ['role'] and ['content']. *)
Record Turn : Type := { role : string; content : string }.

(** An example is a dictionary from column name (['prompt'], ['conv'],
    ['stage1_conv'], ['stage2_conv']) to a list of turns. *)
Abbreviation Example := (gmap string (list Turn)).

(** What the tokenizer returns with [return_dict=True]. *)
Record Encoding : Type := { enc_input_ids : list Z; enc_attention_mask : list Z }.

(** The part of [transformers.PreTrainedTokenizer] the collators use.
    [pad_token_id] is read only when [_pad_token] is set; [encode] is the
    tokenizer call with [add_special_tokens=False] before truncation. *)
Record Tokenizer : Type := {
  bos_token_id : Z;
  eos_token : string;
  _pad_token : option string;
  pad_token_id : Z;
  convert_tokens_to_ids : string -> Z;
  apply_chat_template : list Turn -> bool -> Encoding;
  encode : string -> Encoding
}.

(** [tokenizer(text, max_length=n, truncation=True, add_special_tokens=False)]:
    the encoding cut to its first [n] tokens. *)
Definition tokenizer_call (tok : Tokenizer) (text : string) (max_length : nat) : Encoding :=
  let e := encode tok text in
  {| enc_input_ids := take max_length (enc_input_ids e);
     enc_attention_mask := take max_length (enc_attention_mask e) |}.

(** The tokenizer's contract: the attention mask is aligned with the ids. *)
Definition aligned (e : Encoding) : Prop :=
  length (enc_attention_mask e) = length (enc_input_ids e).

Definition tokenizer_wf (tok : Tokenizer) : Prop :=
  (forall turns gen, aligned (apply_chat_template tok turns gen)) /\
  (forall text, aligned (encode tok text)).

(** The three lists a collator grows for one example. *)
Record Compiled : Type := {
  input_ids : list Z;
  attention_mask : list Z;
  labels : list Z
}.

(** [random.sample([0,1], 1)[0]]: the generator is a stream of draws. *)
Definition Rand : Type := nat -> Z.

Definition random_sample (g : Rand) : Z * Rand := (g 0%nat, fun n => g (S n)).

(** ** DataCollatorForMultiTurnCausalLM *)

Definition init_seq (tok : Tokenizer) : Compiled :=
  {| input_ids := [bos_token_id tok]; attention_mask := [1]; labels := [IGNORE_INDEX] |}.

(** [input_ids += output['input_ids'][1:]] etc. with an all-ignored label mask. *)
Definition extend_ignored (acc : Compiled) (output : Encoding) : Compiled :=
  {| input_ids := input_ids acc ++ drop 1 (enc_input_ids output);
     attention_mask := attention_mask acc ++ drop 1 (enc_attention_mask output);
     labels := labels acc ++ replicate (length (drop 1 (enc_input_ids output))) IGNORE_INDEX |}.

(** [input_ids += output['input_ids']] etc. with the ids as labels. *)
Definition extend_supervised (acc : Compiled) (output : Encoding) : Compiled :=
  {| input_ids := input_ids acc ++ enc_input_ids output;
     attention_mask := attention_mask acc ++ enc_attention_mask output;
     labels := labels acc ++ enc_input_ids output |}.

(** The body of [for conv_dict in example['conv']]. *)
Definition add_turn (tok : Tokenizer) (target_max_len : nat)
    (acc : Compiled) (conv_dict : Turn) : result Compiled :=
  if (role conv_dict =? "user")%string then
    Ok (extend_ignored acc (apply_chat_template tok [conv_dict] true))
  else if (role conv_dict =? "assistant")%string then
    Ok (extend_supervised acc
          (tokenizer_call tok (content conv_dict +:+ eos_token tok) target_max_len))
  else Raise NotImplementedError.

Fixpoint conv_loop (tok : Tokenizer) (target_max_len : nat)
    (acc : Compiled) (conv : list Turn) : result Compiled :=
  match conv with
  | [] => Ok acc
  | conv_dict :: rest =>
      acc' ← add_turn tok target_max_len acc conv_dict;
      conv_loop tok target_max_len acc' rest
  end.

(** The gate [not W_PROMPT_RANDOMIZE or (W_PROMPT_RANDOMIZE and draw % 2 == 0)];
    [or] short-circuits, so a draw is taken only when the flag is set. *)
Definition prompt_gate (W_PROMPT_RANDOMIZE : bool) (g : Rand) : bool * Rand :=
  if negb W_PROMPT_RANDOMIZE then (true, g)
  else let '(d, g') := random_sample g in (d mod 2 =? 0, g').

(** The ['prompt'] part of the loop body. *)
Definition add_prompt (tok : Tokenizer) (W_PROMPT_RANDOMIZE : bool) (g : Rand)
    (example : Example) (acc : Compiled) : Compiled * Rand :=
  match example !! "prompt" with
  | Some prompt =>
      let '(pass, g') := prompt_gate W_PROMPT_RANDOMIZE g in
      if pass then (extend_ignored acc (apply_chat_template tok prompt false), g')
      else (acc, g')
  | None => (acc, g)
  end.

(** One iteration of [for example in instances]. *)
Definition compile_example (tok : Tokenizer) (target_max_len : nat)
    (W_PROMPT_RANDOMIZE : bool) (g : Rand) (example : Example)
    : result (Compiled * Rand) :=
  let '(acc, g') := add_prompt tok W_PROMPT_RANDOMIZE g example (init_seq tok) in
  conv ← getitem example "conv";
  acc' ← conv_loop tok target_max_len acc conv;
  Ok (acc', g').

Fixpoint compile_all (tok : Tokenizer) (target_max_len : nat)
    (W_PROMPT_RANDOMIZE : bool) (g : Rand) (instances : list Example)
    : result (list Compiled * Rand) :=
  match instances with
  | [] => Ok ([], g)
  | example :: rest =>
      '(c, g1) ← compile_example tok target_max_len W_PROMPT_RANDOMIZE g example;
      '(cs, g2) ← compile_all tok target_max_len W_PROMPT_RANDOMIZE g1 rest;
      Ok (c :: cs, g2)
  end.

(** ** Padding *)

(** A batch field: a list of rows ([batch_first=True]). *)
Abbreviation Tensor := (list (list Z)).

(** [torch.nn.utils.rnn.pad_sequence(sequences, batch_first=True, padding_value=v)]:
    every row is extended on the right to the longest row; an empty list of
    sequences is rejected. *)
Definition pad_sequence (sequences : list (list Z)) (padding_value : Z) : result Tensor :=
  match sequences with
  | [] => Raise RuntimeError
  | _ :: _ =>
      let max_len := max_list (length <$> sequences) in
      Ok ((fun s => s ++ replicate (max_len - length s) padding_value) <$> sequences)
  end.

(** [tokenizer.pad_token_id if tokenizer._pad_token is not None
     else tokenizer.convert_tokens_to_ids("<|end_of_text|>")] *)
Definition pad_token_of (tok : Tokenizer) : Z :=
  match _pad_token tok with
  | Some _ => pad_token_id tok
  | None => convert_tokens_to_ids tok "<|end_of_text|>"
  end.

(** The part of both collators after the loop over the instances. *)
Definition apply_padding (tok : Tokenizer) (batch : list Compiled)
    : result (gmap string Tensor) :=
  let _pad_token := pad_token_of tok in
  batch_input_ids ← pad_sequence (input_ids <$> batch) _pad_token;
  batch_attention_mask ← pad_sequence (attention_mask <$> batch) 0;
  batch_labels ← pad_sequence (labels <$> batch) IGNORE_INDEX;
  Ok (<["input_ids" := batch_input_ids]>
        (<["attention_mask" := batch_attention_mask]>
           (<["labels" := batch_labels]> ∅))).

(** [DataCollatorForMultiTurnCausalLM.__call__] *)
Definition causal_lm_call (tok : Tokenizer) (target_max_len : nat)
    (W_PROMPT_RANDOMIZE : bool) (g : Rand) (instances : list Example)
    : result (gmap string Tensor * Rand) :=
  '(batch, g') ← compile_all tok target_max_len W_PROMPT_RANDOMIZE g instances;
  data_dict ← apply_padding tok batch;
  Ok (data_dict, g').

(** ** DataCollatorForMultiTurnMixtureTraining *)

(** One iteration of [for example in instances] of [_collator]; the branch
    after the [assert] is kept as the source has it. *)
Definition _compile_example (tok : Tokenizer) (target_max_len : nat)
    (input_column_name : string) (example : Example) : result Compiled :=
  let acc := init_seq tok in
  match example !! "prompt" with
  | Some _ => Raise AssertionError
  | None =>
      let acc :=
        match example !! "prompt" with
        | Some prompt => extend_ignored acc (apply_chat_template tok prompt false)
        | None => acc
        end in
      conv ← getitem example input_column_name;
      conv_loop tok target_max_len acc conv
  end.

Fixpoint _compile_all (tok : Tokenizer) (target_max_len : nat)
    (input_column_name : string) (instances : list Example) : result (list Compiled) :=
  match instances with
  | [] => Ok []
  | example :: rest =>
      c ← _compile_example tok target_max_len input_column_name example;
      cs ← _compile_all tok target_max_len input_column_name rest;
      Ok (c :: cs)
  end.

Definition _collator (tok : Tokenizer) (target_max_len : nat)
    (instances : list Example) (input_column_name : string)
    : result (gmap string Tensor) :=
  batch ← _compile_all tok target_max_len input_column_name instances;
  apply_padding tok batch.

(** [{f'stage1_{k}': v for k, v in d.items()}] *)
Definition stage1_keys (d : gmap string Tensor) : gmap string Tensor :=
  list_to_map (prod_map (String.append "stage1_") id <$> map_to_list d).

(** [DataCollatorForMultiTurnMixtureTraining.__call__]; in
    [{**stage1_dict, **stage2_dict}] the second dictionary wins. *)
Definition mixture_call (tok : Tokenizer) (target_max_len : nat)
    (instances : list Example) : result (gmap string Tensor) :=
  stage2_dict ← _collator tok target_max_len instances "stage2_conv";
  stage1_dict ← _collator tok target_max_len instances "stage1_conv";
  let stage1_dict := stage1_keys stage1_dict in
  Ok (stage2_dict ∪ stage1_dict).

(** ** make_data_module, format ['conv-stage2_w_prompt'] *)

(** [re.split(r"<USER>:|<AGENT>:", s)]: [skip] counts the characters of a
    matched delimiter still to be passed, [cur] is the piece being read. *)
Fixpoint re_split_go (s : string) (skip : nat) (cur : string) : list string :=
  match s with
  | EmptyString => [cur]
  | String c rest =>
      match skip with
      | S k => re_split_go rest k cur
      | O =>
          if String.prefix "<USER>:" s then cur :: re_split_go rest 6 ""
          else if String.prefix "<AGENT>:" s then cur :: re_split_go rest 7 ""
          else re_split_go rest 0 (cur +:+ String c "")
      end
  end.

Definition re_split (s : string) : list string := re_split_go s 0 "".

(** [needle in hay] on strings. *)
Fixpoint contains (needle hay : string) : bool :=
  String.prefix needle hay ||
  match hay with
  | EmptyString => false
  | String _ rest => contains needle rest
  end.

(** A row of [mydataset.ds]. *)
Record RawExample : Type := {
  context : string;
  pseudo_input : string;
  teacher_output_conv : list Turn
}.

(** Lines 746-751: the context string becomes a list of turns, user first,
    and a trailing user turn is removed. [strip] is [str.strip]. *)
Definition make_context_turns (strip : string -> string) (ctx : string) : list Turn :=
  let _conv_list := re_split ctx in
  let _conv_list := strip <$> _conv_list in
  let _conv_list := filter (fun turn => turn <> "") _conv_list in
  imap (fun i turn =>
          if Nat.even i then {| role := "user"; content := turn |}
          else {| role := "assistant"; content := turn |}) _conv_list.

Definition make_context_history (strip : string -> string) (ctx : string)
    : result (list Turn) :=
  let context_history := make_context_turns strip ctx in
  match last context_history with
  | None => Raise IndexError
  | Some t =>
      if (role t =? "user")%string
      then Ok (take (length context_history - 1) context_history)
      else Ok context_history
  end.

Definition END_CONVERSATION_TOKEN : string := "[END_CONVERSATION]".

(** Lines 755-763. [get_student_input_prompt] belongs to the dataset class. *)
Definition make_instance_conv (strip : string -> string)
    (get_student_input_prompt : string -> string) (ex : RawExample)
    : result (list Turn) :=
  match last (teacher_output_conv ex) with
  | None => Raise IndexError
  | Some t =>
      let teacher_output :=
        if (role t =? "user")%string && contains END_CONVERSATION_TOKEN (content t)
        then take (length (teacher_output_conv ex) - 1) (teacher_output_conv ex)
        else teacher_output_conv ex in
      Ok ({| role := "user";
             content := strip (get_student_input_prompt (pseudo_input ex)) |}
            :: teacher_output)
  end.

(** The row [{'prompt': context_history, 'conv': instance_conv}] of the
    training set. *)
Definition make_w_prompt_example (strip : string -> string)
    (get_student_input_prompt : string -> string) (ex : RawExample)
    : result Example :=
  context_history ← make_context_history strip (context ex);
  instance_conv ← make_instance_conv strip get_student_input_prompt ex;
  Ok (<["prompt" := context_history]> (<["conv" := instance_conv]> ∅)).

(** ** MixtureTrainer *)

(** The Loss Window: [stage1_loss], [stage2_loss], [total_loss]. *)
Record LossWindow : Type := {
  stage1_loss : list Qc;
  stage2_loss : list Qc;
  total_loss : list Qc
}.

Definition empty_window : LossWindow :=
  {| stage1_loss := []; stage2_loss := []; total_loss := [] |}.

Definition Qc_sum (l : list Qc) : Qc := foldr Qcplus 0%Qc l.

(** The arithmetic mean of a series. *)
Definition mean (l : list Qc) : Qc := (Qc_sum l / Qc_of_Z (Z.of_nat (length l)))%Qc.

(** [torch.stack(l).mean().item()]; [torch.stack] rejects an empty list. *)
Definition stack_mean (l : list Qc) : result Qc :=
  match l with
  | [] => Raise RuntimeError
  | _ :: _ => Ok (mean l)
  end.

(** The three series grow together: one entry each per training step. *)
Definition window_ok (w : LossWindow) : Prop :=
  length (stage1_loss w) = length (total_loss w) /\
  length (stage2_loss w) = length (total_loss w).

(** [MixtureTrainer.log]. [super_log] is [Seq2SeqTrainer.log] acting on the
    state of the base trainer; it may change the record it is given. *)
Definition log {Base : Type}
    (super_log : Base -> gmap string Qc -> Base * gmap string Qc)
    (self : LossWindow) (base : Base) (logs : gmap string Qc)
    : result (LossWindow * Base * gmap string Qc) :=
  logs ← (if (0 <? length (total_loss self))%nat then
            m1 ← stack_mean (stage1_loss self);
            let logs := <["stage1_loss" := m1]> logs in
            m2 ← stack_mean (stage2_loss self);
            let logs := <["stage2_loss" := m2]> logs in
            m3 ← stack_mean (total_loss self);
            Ok (<["total_loss" := m3]> logs)
          else Ok logs);
  let '(base', logs') := super_log base logs in
  Ok (empty_window, base', logs').

(** The three fields of one stage, read in the order of the dictionary
    display. *)
Definition stage_inputs (inputs : gmap string Tensor) (k1 k2 k3 : string)
    : result (gmap string Tensor) :=
  a ← getitem inputs k1;
  b ← getitem inputs k2;
  c ← getitem inputs k3;
  Ok (<["input_ids" := a]> (<["attention_mask" := b]> (<["labels" := c]> ∅))).

(** [MixtureTrainer.compute_loss]. [model] stands for
    [super().compute_loss(model, _, return_outputs)]: the forward pass, giving
    the loss and the outputs, of which the base method hands back the loss
    alone when [return_outputs] is false. [_nested_gather] is the identity in
    a single process, [detach] does not change the value. *)
Definition compute_loss {Output : Type}
    (model : gmap string Tensor -> Qc * Output) (stage2_ratio : Qc)
    (self : LossWindow) (inputs : gmap string Tensor) (return_outputs : bool)
    : result (LossWindow * (Qc * option Output)) :=
  stage2_inputs ← stage_inputs inputs "input_ids" "attention_mask" "labels";
  let stage2_rets := model stage2_inputs in
  stage1_inputs ← stage_inputs inputs
                    "stage1_input_ids" "stage1_attention_mask" "stage1_labels";
  let stage1_rets := model stage1_inputs in
  let '(stage1_loss_, stage1_output, stage2_loss_, stage2_output) :=
    if return_outputs
    then (stage1_rets.1, Some stage1_rets.2, stage2_rets.1, Some stage2_rets.2)
    else (stage1_rets.1, None, stage2_rets.1, None) in
  let loss := ((1 - stage2_ratio) * stage1_loss_ + stage2_ratio * stage2_loss_)%Qc in
  let self' :=
    {| stage1_loss := stage1_loss self ++ [stage1_loss_];
       stage2_loss := stage2_loss self ++ [stage2_loss_];
       total_loss := total_loss self ++ [loss] |} in
  Ok (self', (loss, if return_outputs then stage2_output else None)).

(** ** A small tokenizer to run the collators on *)

Definition toy_codes (s : string) : list Z :=
  (fun c => Z.of_nat (nat_of_ascii c)) <$> String.list_ascii_of_string s.

Definition toy_all_ones (ids : list Z) : Encoding :=
  {| enc_input_ids := ids; enc_attention_mask := replicate (length ids) 1 |}.

(** 1 is the beginning-of-sequence id, 3 and 4 open a user and an assistant
    turn, 5 closes a turn; the generation prompt is an open assistant turn. *)
Definition toy_template (turns : list Turn) (add_generation_prompt : bool) : Encoding :=
  toy_all_ones
    ([1] ++ concat ((fun t => [if (role t =? "user")%string then 3 else 4]
                                ++ toy_codes (content t) ++ [5]) <$> turns)
         ++ (if add_generation_prompt then [4] else [])).

Definition toy_tok : Tokenizer :=
  {| bos_token_id := 1;
     eos_token := "$";
     _pad_token := None;
     pad_token_id := 0;
     convert_tokens_to_ids := fun _ => 2;
     apply_chat_template := toy_template;
     encode := fun s => toy_all_ones (toy_codes s) |}.

Definition toy_rand : Rand := fun _ => 0.

(** [str.strip] on ASCII text: blanks are the codes 9-13, 28-32. *)
Definition is_blank (c : ascii) : bool :=
  let n := nat_of_ascii c in
  ((9 <=? n) && (n <=? 13) || (28 <=? n) && (n <=? 32))%nat.

Fixpoint lstrip (s : string) : string :=
  match s with
  | String c rest => if is_blank c then lstrip rest else s
  | EmptyString => EmptyString
  end.

Definition strip_ascii (s : string) : string :=
  String.rev (lstrip (String.rev (lstrip s))).

Definition toy_example : Example :=
  <["conv" := [ {| role := "user"; content := "hi" |};
                {| role := "assistant"; content := "hello" |} ]]> ∅.

Definition toy_example_prompt : Example :=
  <["prompt" := [ {| role := "user"; content := "a" |};
                  {| role := "assistant"; content := "b" |} ]]> toy_example.

(** What [toy_example] compiles to with [target_max_len = 10]. *)
Definition toy_seq : Compiled :=
  {| input_ids := [1; 3; 104; 105; 5; 4; 104; 101; 108; 108; 111; 36];
     attention_mask := [1; 1; 1; 1; 1; 1; 1; 1; 1; 1; 1; 1];
     labels := [-100; -100; -100; -100; -100; -100; 104; 101; 108; 108; 111; 36] |}.

(** A forward pass to run [compute_loss] on: the loss is the number of
    input ids, the outputs are the ids themselves. *)
Definition toy_model (d : gmap string Tensor) : Qc * list Z :=
  match d !! "input_ids" with
  | Some rows => (Qc_of_Z (Z.of_nat (length (concat rows))), concat rows)
  | None => (0%Qc, [])
  end.

Definition toy_inputs : gmap string Tensor :=
  <["stage1_input_ids" := [[1; 3; 97; 5; 4]]]>
    (<["stage1_attention_mask" := [[1; 1; 1; 1; 1]]]>
       (<["stage1_labels" := [[-100; -100; -100; -100; -100]]]>
          (<["input_ids" := [[1; 98; 36]]]>
             (<["attention_mask" := [[1; 1; 1]]]>
                (<["labels" := [[-100; 98; 36]]]> ∅))))).

(** A base trainer that keeps the records it is asked to log. *)
Definition toy_super_log (base : list (gmap string Qc)) (logs : gmap string Qc)
    : list (gmap string Qc) * gmap string Qc :=
  (base ++ [logs], logs).


(** Instances with a ['system'] turn, and mixture instances without and with
    a context. *)
Definition toy_bad_example : Example :=
  <["conv" := [ {| role := "user"; content := "hi" |};
                {| role := "system"; content := "x" |} ]]> ∅.

Definition toy_mixture : Example :=
  <["stage1_conv" := [ {| role := "user"; content := "a" |} ]]>
    (<["stage2_conv" := [ {| role := "assistant"; content := "b" |} ]]> ∅).

Definition toy_bad_mixture : Example :=
  <["stage1_conv" := [ {| role := "system"; content := "x" |} ]]>
    (<["stage2_conv" := [ {| role := "assistant"; content := "b" |} ]]> ∅).

Definition toy_mixture_prompt : Example :=
  <["prompt" := [ {| role := "user"; content := "a" |};
                  {| role := "assistant"; content := "b" |} ]]> toy_mixture.


(** ** DataCollatorForCausalLM *)

(** A value of the batch dictionary: [input_ids] and [labels] are integer
    tensors, [attention_mask] is the boolean tensor [input_ids.ne(pad)]. *)
Inductive BatchValue : Type :=
| IntTensor (t : Tensor)
| BoolTensor (t : list (list bool)).

(** [[ex[k] for ex in instances]] *)
Fixpoint getitems {V : Type} (instances : list (gmap string V)) (k : string)
    : result (list V) :=
  match instances with
  | [] => Ok []
  | ex :: rest =>
      v ← getitem ex k;
      vs ← getitems rest k;
      Ok (v :: vs)
  end.

(** The loop over [zip(tokenized_sources, tokenized_targets)]: the rows of
    [input_ids] and of [labels], in the order of the instances. *)
Fixpoint source_target_loop (train_on_source predict_with_generate : bool)
    (pairs : list (list Z * list Z)) : list (list Z) * list (list Z) :=
  match pairs with
  | [] => ([], [])
  | (tokenized_source, tokenized_target) :: rest =>
      let '(input_ids, labels) :=
        source_target_loop train_on_source predict_with_generate rest in
      if negb predict_with_generate then
        ((tokenized_source ++ tokenized_target) :: input_ids,
         (if negb train_on_source
          then replicate (length tokenized_source) IGNORE_INDEX ++ tokenized_target
          else tokenized_source ++ tokenized_target) :: labels)
      else (tokenized_source :: input_ids, labels)
  end.

(** [t.ne(v)] *)
Definition tensor_ne (t : list (list Z)) (v : Z) : list (list bool) :=
  (fun row : list Z => (fun x => negb (x =? v)) <$> row) <$> t.

(** [DataCollatorForCausalLM.__call__]. [render] is
    [tokenizer.apply_chat_template(_, tokenize=False, add_generation_prompt=_)];
    the tokenizer called on a list of texts encodes each of them. *)
Definition DataCollatorForCausalLM_call (tok : Tokenizer)
    (render : list Turn -> bool -> string)
    (source_max_len target_max_len : nat)
    (train_on_source predict_with_generate : bool)
    (instances : list (gmap string string)) : result (gmap string BatchValue) :=
  inputs ← getitems instances "input";
  let sources :=
    (fun i => render [ {| role := "user"; content := i |} ] true) <$> inputs in
  outputs ← getitems instances "output";
  let targets := (fun o => o +:+ eos_token tok) <$> outputs in
  let tokenized_sources_with_prompt :=
    (fun s => enc_input_ids (tokenizer_call tok s source_max_len)) <$> sources in
  let tokenized_targets :=
    (fun s => enc_input_ids (tokenizer_call tok s target_max_len)) <$> targets in
  let '(input_ids, labels) :=
    source_target_loop train_on_source predict_with_generate
      (zip tokenized_sources_with_prompt tokenized_targets) in
  let _pad_token := pad_token_of tok in
  input_ids ← pad_sequence input_ids _pad_token;
  labels ← (if negb predict_with_generate
            then l ← pad_sequence labels IGNORE_INDEX; Ok (Some l)
            else Ok None);
  let data_dict :=
    <["input_ids" := IntTensor input_ids]>
      (<["attention_mask" := BoolTensor (tensor_ne input_ids _pad_token)]> ∅) in
  Ok (match labels with
      | Some labels => <["labels" := IntTensor labels]> data_dict
      | None => data_dict
      end).

(** The tokens of the source and of the target of one instance. *)
Definition source_tokens (tok : Tokenizer) (render : list Turn -> bool -> string)
    (source_max_len : nat) (input : string) : list Z :=
  take source_max_len
    (enc_input_ids (encode tok (render [ {| role := "user"; content := input |} ] true))).

Definition target_tokens (tok : Tokenizer) (target_max_len : nat) (output : string)
    : list Z :=
  take target_max_len (enc_input_ids (encode tok (output +:+ eos_token tok))).

(** A chat template for texts: ["U:"], the content, and ["A:"] as the
    generation prompt. *)
Definition toy_render (turns : list Turn) (add_generation_prompt : bool) : string :=
  foldr (fun t acc => "U:" +:+ content t +:+ acc)
        (if add_generation_prompt then "A:" else "") turns.

Definition toy_instance : gmap string string :=
  <["input" := "hi"]> (<["output" := "yo"]> ∅).

Definition toy_instance2 : gmap string string :=
  <["input" := "$"]> (<["output" := "$"]> ∅).

(** [toy_tok] with the end-of-sequence token as pad token, the usual
    [tokenizer.pad_token = tokenizer.eos_token]. *)
Definition toy_tok_pad_eos : Tokenizer :=
  {| bos_token_id := 1;
     eos_token := "$";
     _pad_token := Some "$";
     pad_token_id := 36;
     convert_tokens_to_ids := fun _ => 2;
     apply_chat_template := toy_template;
     encode := fun s => toy_all_ones (toy_codes s) |}.

(** Batches the collators return on the small instances. *)
Definition toy_single_batch : gmap string Tensor :=
  <["input_ids" := [[1; 3; 104; 105; 5; 4; 104; 101; 108; 108; 111; 36]]]>
    (<["attention_mask" := [[1; 1; 1; 1; 1; 1; 1; 1; 1; 1; 1; 1]]]>
       (<["labels" := [[-100; -100; -100; -100; -100; -100; 104; 101; 108; 108; 111; 36]]]>
          ∅)).

Definition toy_plain_batch : gmap string BatchValue :=
  <["input_ids" := IntTensor [[85; 58; 104; 105; 121; 111; 36];
                              [85; 58; 36; 65; 36; 36; 2]]]>
    (<["attention_mask" := BoolTensor [[true; true; true; true; true; true; true];
                                       [true; true; true; true; true; true; false]]]>
       (<["labels" := IntTensor [[-100; -100; -100; -100; 121; 111; 36];
                                 [-100; -100; -100; -100; 36; 36; -100]]]> ∅)).

Definition toy_plain_batch_pad_eos : gmap string BatchValue :=
  <["input_ids" := IntTensor [[85; 58; 104; 105; 65; 58; 121; 111; 36]]]>
    (<["attention_mask" :=
         BoolTensor [[true; true; true; true; true; true; true; true; false]]]>
       (<["labels" := IntTensor [[-100; -100; -100; -100; -100; -100; 121; 111; 36]]]> ∅)).

Definition toy_plain_batch_predict : gmap string BatchValue :=
  <["input_ids" := IntTensor [[85; 58; 104; 105; 65; 58]; [85; 58; 36; 65; 58; 2]]]>
    (<["attention_mask" := BoolTensor [[true; true; true; true; true; true];
                                       [true; true; true; true; true; false]]]> ∅).

(** ** make_data_module: the rows of the training set *)

(** A row of [mydataset.ds] with all the fields the formats read. *)
Record PseudoRow : Type := {
  row_pseudo_input : string;
  row_teacher_output_single : string;
  row_student_output_single : string;
  row_context : string;
  row_reason : string;
  row_teacher_output_conv : list Turn
}.

Definition raw_of_row (ex : PseudoRow) : RawExample :=
  {| context := row_context ex;
     pseudo_input := row_pseudo_input ex;
     teacher_output_conv := row_teacher_output_conv ex |}.

(** [AgentBenchDataset]: the rows and the prompt builders of the dataset
    class, which is not part of this file. *)
Record AgentBenchDataset : Type := {
  ds : list PseudoRow;
  get_meta_cognition_input_prompt : string -> string -> string -> string;
  get_meta_cognition_output_prompt : string -> string -> string;
  get_student_input_prompt : string -> string
}.

(** [for x in l: ...] with a body that may raise. *)
Fixpoint for_each {A B : Type} (f : A -> result B) (l : list A) : result (list B) :=
  match l with
  | [] => Ok []
  | x :: rest =>
      y ← f x;
      ys ← for_each f rest;
      Ok (y :: ys)
  end.

(** Lines 677-689: the template with the two contents filled in. *)
Definition make_stage1_conv (mydataset : AgentBenchDataset) (ex : PseudoRow)
    : list Turn :=
  [ {| role := "user";
       content := get_meta_cognition_input_prompt mydataset
                    (row_pseudo_input ex) (row_teacher_output_single ex)
                    (row_student_output_single ex) |};
    {| role := "assistant";
       content := get_meta_cognition_output_prompt mydataset
                    (row_context ex) (row_reason ex) |} ].

(** The rest of the line from [s] on: what [.+] matches. *)
Fixpoint line_rest (s : string) : string :=
  match s with
  | EmptyString => EmptyString
  | String c rest =>
      if Ascii.eqb c "010"%char then EmptyString else String c (line_rest rest)
  end.

Fixpoint string_drop (n : nat) (s : string) : string :=
  match n, s with
  | S k, String _ rest => string_drop k rest
  | _, _ => s
  end.

(** [re.findall(r"agentbench-(.+)", dataset)[0]]: the first place where
    ["agentbench-"] is followed by a character other than a newline, and
    the rest of that line; [IndexError] when there is none. *)
Fixpoint find_taskname (s : string) : result string :=
  match s with
  | EmptyString => Raise IndexError
  | String _ rest =>
      if String.prefix "agentbench-" s then
        match string_drop 11 s with
        | EmptyString => find_taskname rest
        | String c _ as tail =>
            if Ascii.eqb c "010"%char then find_taskname rest
            else Ok (line_rest tail)
        end
      else find_taskname rest
  end.

(** The rows of [dataset['train']] before the shuffle, format by format. *)
Definition joint_row (s1 s2 : list Turn) : Example :=
  <["stage1_conv" := s1]> (<["stage2_conv" := s2]> ∅).

Definition conv_row (c : list Turn) : Example := <["conv" := c]> ∅.

Definition joint_rows (mydataset : AgentBenchDataset) : result (list Example) :=
  let stage1_conv : list (list Turn) := make_stage1_conv mydataset <$> ds mydataset in
  stage2_conv ← for_each
    (fun ex => make_instance_conv (fun s => s)
                 (get_student_input_prompt mydataset) (raw_of_row ex))
    (ds mydataset);
  Ok (zip_with joint_row stage1_conv stage2_conv).

Definition conv_rows (mydataset : AgentBenchDataset) : result (list Example) :=
  all_conv ← for_each
    (fun ex => make_instance_conv (fun s => s)
                 (get_student_input_prompt mydataset) (raw_of_row ex))
    (ds mydataset);
  Ok (conv_row <$> (all_conv : list (list Turn))).

Definition w_prompt_rows (strip : string -> string) (mydataset : AgentBenchDataset)
    : result (list Example) :=
  for_each
    (fun ex => make_w_prompt_example strip
                 (get_student_input_prompt mydataset) (raw_of_row ex))
    (ds mydataset).

(** [make_data_module] up to the training rows. [load] is
    [AgentBenchDataset(environment_name=taskname, ...)]. *)
Definition make_train_rows (strip : string -> string)
    (load : string -> AgentBenchDataset)
    (context_id : Z) (dataset dataset_format : string) : result (list Example) :=
  if context_id =? -1 then Raise AssertionError
  else if contains "agentbench-" dataset then
    taskname ← find_taskname dataset;
    if (dataset_format =? "cot-stage1_conv_stage2_joint_loss")%string then
      joint_rows (load taskname)
    else if (dataset_format =? "conv-stage2")%string then
      conv_rows (load taskname)
    else if (dataset_format =? "conv-stage2_w_prompt")%string then
      w_prompt_rows strip (load taskname)
    else Raise NotImplementedError
  else Raise NotImplementedError.

(** The collator [make_data_module] returns and the trainer [train] builds
    are chosen by the same test, ['joint_loss' in args.dataset_format]. *)
Definition uses_mixture (dataset_format : string) : bool :=
  contains "joint_loss" dataset_format.

(** The chosen collator called on a batch of rows. *)
Definition data_collator (tok : Tokenizer) (target_max_len : nat)
    (W_PROMPT_RANDOMIZE : bool) (g : Rand) (dataset_format : string)
    (instances : list Example) : result (gmap string Tensor * Rand) :=
  if uses_mixture dataset_format then
    d ← mixture_call tok target_max_len instances;
    Ok (d, g)
  else causal_lm_call tok target_max_len W_PROMPT_RANDOMIZE g instances.

(** A small dataset. *)
Definition toy_row : PseudoRow :=
  {| row_pseudo_input := "q";
     row_teacher_output_single := "t";
     row_student_output_single := "s";
     row_context := "<USER>: hi <AGENT>: hello <USER>: bye";
     row_reason := "r";
     row_teacher_output_conv :=
       [ {| role := "assistant"; content := "a" |};
         {| role := "user"; content := "ok [END_CONVERSATION]" |} ] |}.

Definition toy_dataset (taskname : string) : AgentBenchDataset :=
  {| ds := [toy_row];
     get_meta_cognition_input_prompt := fun i t s => i +:+ t +:+ s;
     get_meta_cognition_output_prompt := fun c r => r;
     get_student_input_prompt := fun i => " " +:+ i |}.

(** The row of [toy_row] in the joint-loss format. *)
Definition toy_joint_row : Example :=
  joint_row [ {| role := "user"; content := "qts" |};
              {| role := "assistant"; content := "r" |} ]
            [ {| role := "user"; content := " q" |};
              {| role := "assistant"; content := "a" |} ].

(** ** find_all_linear_names *)

(** The class the modules are tested against. *)
Inductive LinearClass : Type := Linear4bit | Linear8bitLt | TorchLinear.

(** [bnb.nn.Linear4bit if args.bits == 4 else
     (bnb.nn.Linear8bitLt if args.bits == 8 else torch.nn.Linear)] *)
Definition linear_class (bits : Z) : LinearClass :=
  if bits =? 4 then Linear4bit else if bits =? 8 then Linear8bitLt else TorchLinear.

(** [s.split(sep)] for a one-character separator: [cur] is the piece being
    read. *)
Fixpoint split_go (sep : ascii) (s : string) (cur : string) : list string :=
  match s with
  | EmptyString => [cur]
  | String c rest =>
      if Ascii.eqb c sep then cur :: split_go sep rest ""
      else split_go sep rest (cur +:+ String c "")
  end.

Definition str_split (sep : ascii) (s : string) : list string := split_go sep s "".

(** [names[0] if len(names) == 1 else names[-1]] with
    [names = name.split('.')], which is never empty. *)
Definition module_leaf (name : string) : string :=
  let names := str_split "." name in
  if (length names =? 1)%nat then default "" (names !! 0%nat)
  else default "" (last names).

(** [find_all_linear_names]. [named_modules] is [model.named_modules()] and
    [isinstance] the test of the same name; the list built from the set has
    no particular order. *)
Definition find_all_linear_names {Module : Type}
    (isinstance : Module -> LinearClass -> bool) (bits : Z)
    (named_modules : list (string * Module)) : list string :=
  let cls := linear_class bits in
  let lora_module_names : gset string :=
    foldl (fun (acc : gset string) '(name, module) =>
             if isinstance module cls then acc ∪ {[module_leaf name]} else acc)
          ∅ named_modules in
  let lora_module_names :=
    if decide ("lm_head" ∈ lora_module_names)
    then lora_module_names ∖ {["lm_head"]}
    else lora_module_names in
  elements lora_module_names.

(** Whether the character occurs in the string. *)
Fixpoint has_char (c : ascii) (s : string) : bool :=
  match s with
  | EmptyString => false
  | String c' rest => Ascii.eqb c' c || has_char c rest
  end.

(** Modules to try [find_all_linear_names] on: the class of a module is
    what it is an instance of. *)
Definition toy_modules : list (string * LinearClass) :=
  [ ("model.layers.0.q_proj", Linear4bit);
    ("model.layers.1.q_proj", Linear4bit);
    ("model.norm", TorchLinear);
    ("lm_head", Linear4bit) ].

Definition toy_isinstance (m cls : LinearClass) : bool :=
  match m, cls with
  | Linear4bit, Linear4bit | Linear8bitLt, Linear8bitLt | _, TorchLinear => true
  | _, _ => false
  end.

(** ** get_last_checkpoint *)

(** Exceptions of the functions around the training run, and what such a
    function returns or raises. *)
Inductive run_exn : Type :=
| ValueError
| ZeroDivisionError.

Inductive outcome (A : Type) : Type :=
| Return (a : A)
| Throw (e : run_exn).
Arguments Return {A} a.
Arguments Throw {A} e.

(** What the function asks the file system. *)
Record FileSystem : Type := {
  isdir : string -> bool;
  path_exists : string -> bool;
  listdir : string -> list string
}.

Fixpoint ends_with_slash (s : string) : bool :=
  match s with
  | EmptyString => false
  | String c EmptyString => Ascii.eqb c "/"
  | String _ rest => ends_with_slash rest
  end.

(** [os.path.join(a, b)] of [posixpath]. *)
Definition path_join (a b : string) : string :=
  if String.prefix "/" b then b
  else if (a =? "")%string || ends_with_slash a then a +:+ b
  else a +:+ "/" +:+ b.

(** [s.replace(old, new)] for a non-empty [old]: [skip] counts the
    characters of a replaced occurrence still to be passed. *)
Fixpoint str_replace_go (old new : string) (s : string) (skip : nat) : string :=
  match s with
  | EmptyString => EmptyString
  | String c rest =>
      match skip with
      | S k => str_replace_go old new rest k
      | O =>
          if String.prefix old s
          then new +:+ str_replace_go old new rest (String.length old - 1)
          else String c (str_replace_go old new rest 0)
      end
  end.

Definition str_replace (old new s : string) : string := str_replace_go old new s 0.

(** A directory entry the loop looks at, and the step it reads from it. *)
Definition is_checkpoint (fs : FileSystem) (checkpoint_dir filename : string) : bool :=
  isdir fs (path_join checkpoint_dir filename) && String.prefix "checkpoint" filename.

(** The loop over [os.listdir(checkpoint_dir)]. [int] is Python's [int] on
    strings, [None] standing for [ValueError]. *)
Fixpoint max_step_loop (fs : FileSystem) (int : string -> option Z)
    (checkpoint_dir : string) (filenames : list string) (max_step : Z) : outcome Z :=
  match filenames with
  | [] => Return max_step
  | filename :: rest =>
      if is_checkpoint fs checkpoint_dir filename then
        match int (str_replace "checkpoint-" "" filename) with
        | Some step =>
            max_step_loop fs int checkpoint_dir rest (Z.max max_step step)
        | None => Throw ValueError
        end
      else max_step_loop fs int checkpoint_dir rest max_step
  end.

(** [get_last_checkpoint]. [str] is the decimal notation of the f-string. *)
Definition get_last_checkpoint (fs : FileSystem) (int : string -> option Z)
    (str : Z -> string) (checkpoint_dir : string) : outcome (option string * bool) :=
  if isdir fs checkpoint_dir then
    let is_completed := path_exists fs (path_join checkpoint_dir "completed") in
    if is_completed then Return (None, true)
    else
      match max_step_loop fs int checkpoint_dir (listdir fs checkpoint_dir) 0 with
      | Return max_step =>
          if max_step =? 0 then Return (None, is_completed)
          else Return (Some (path_join checkpoint_dir ("checkpoint-" +:+ str max_step)),
                       is_completed)
      | Throw e => Throw e
      end
  else Return (None, false).

(** A file system with an output directory that holds two checkpoints, and
    a reader and a writer of short decimal numbers. *)
Definition toy_fs : FileSystem :=
  {| isdir := fun p => bool_decide (p ∈ ["out"; "out/checkpoint-250"; "out/checkpoint-0500"]);
     path_exists := fun p => bool_decide (p ∈ ["out"; "out/checkpoint-250";
                                               "out/checkpoint-0500"; "out/log.txt"]);
     listdir := fun p => if (p =? "out")%string
                         then ["checkpoint-250"; "log.txt"; "checkpoint-0500"] else [] |}.

Definition toy_digit (c : ascii) : option Z :=
  let n := Z.of_nat (nat_of_ascii c) in
  if (48 <=? n) && (n <=? 57) then Some (n - 48) else None.

Fixpoint toy_int_go (s : string) (acc : Z) : option Z :=
  match s with
  | EmptyString => Some acc
  | String c rest =>
      match toy_digit c with
      | Some d => toy_int_go rest (10 * acc + d)
      | None => None
      end
  end.

Definition toy_int (s : string) : option Z :=
  match s with
  | EmptyString => None
  | _ => toy_int_go s 0
  end.

Definition toy_str (n : Z) : string :=
  if n =? 250 then "250" else if n =? 500 then "500" else "?".

(** ** SavePeftModelCallback.save_model and the resume in get_accelerate_model *)

(** [PREFIX_CHECKPOINT_DIR] of [transformers.trainer_utils]. *)
Definition PREFIX_CHECKPOINT_DIR : string := "checkpoint".

(** Lines 341-346: the directory [save_model] writes the adapter to. [str]
    is the decimal notation of the f-string. *)
Definition peft_model_path (str : Z -> string) (best_model_checkpoint : option string)
    (output_dir : string) (global_step : Z) : string :=
  let checkpoint_folder :=
    match best_model_checkpoint with
    | Some best => path_join best "adapter_model"
    | None => path_join output_dir (PREFIX_CHECKPOINT_DIR +:+ "-" +:+ str global_step)
    end in
  path_join checkpoint_folder "adapter_model".

(** Line 431: the directory [get_accelerate_model] loads the adapter from
    when it is given a checkpoint directory. *)
Definition adapter_load_path (checkpoint_dir : string) : string :=
  path_join checkpoint_dir "adapter_model".

(** ** print_trainable_parameters *)

(** The loop over [model.named_parameters()]: a parameter is its number of
    elements and whether it requires a gradient. *)
Fixpoint count_parameters (named_parameters : list (nat * bool))
    (trainable_params all_param : Z) : Z * Z :=
  match named_parameters with
  | [] => (trainable_params, all_param)
  | (numel, requires_grad) :: rest =>
      let all_param := all_param + Z.of_nat numel in
      let trainable_params :=
        if requires_grad then trainable_params + Z.of_nat numel else trainable_params in
      count_parameters rest trainable_params all_param
  end.

(** [print_trainable_parameters]: the three numbers it prints, in exact
    arithmetic. *)
Definition print_trainable_parameters (bits : Z) (named_parameters : list (nat * bool))
    : outcome (Qc * Z * Qc) :=
  let '(trainable_params, all_param) := count_parameters named_parameters 0 0 in
  let trainable_params : Qc :=
    if bits =? 4 then (Qc_of_Z trainable_params / 2)%Qc else Qc_of_Z trainable_params in
  if all_param =? 0 then Throw ZeroDivisionError
  else Return (trainable_params, all_param,
               (Qc_of_Z 100 * trainable_params / Qc_of_Z all_param)%Qc).

(** The number of elements of all parameters, and of the trainable ones. *)
Definition total_numel (named_parameters : list (nat * bool)) : Z :=
  foldr (fun (p : nat * bool) acc => Z.of_nat p.1 + acc) 0 named_parameters.

Definition trainable_numel (named_parameters : list (nat * bool)) : Z :=
  foldr (fun (p : nat * bool) acc => (if p.2 then Z.of_nat p.1 else 0) + acc)
    0 named_parameters.

(** ** Training steps *)


(** ** Predicates used in the statements *)

(** The label mask always has the length of the ids. *)
Definition labels_aligned (c : Compiled) : Prop :=
  length (labels c) = length (input_ids c).

(** With a well-formed tokenizer so has the attention mask. *)
Definition mask_aligned (c : Compiled) : Prop :=
  length (attention_mask c) = length (input_ids c).

(** [c'] is [c] with something appended to each of the three lists. *)
Definition extends (c c' : Compiled) : Prop :=
  exists ids mask labs,
    input_ids c' = input_ids c ++ ids /\
    attention_mask c' = attention_mask c ++ mask /\
    labels c' = labels c ++ labs.

(** The longest row of a batch field. *)
Definition longest (seqs : list (list Z)) : nat := max_list (length <$> seqs).
Arguments longest : simpl never.

(** Right after the beginning-of-sequence id the sequence holds the context
    as the chat template renders it with [add_generation_prompt = gen],
    without its first token. *)
Definition context_rendered_with (gen : bool) (tok : Tokenizer)
    (prompt : list Turn) (seq : Compiled) : Prop :=
  take (length (drop 1 (enc_input_ids (apply_chat_template tok prompt gen))))
       (drop 1 (input_ids seq))
  = drop 1 (enc_input_ids (apply_chat_template tok prompt gen)).

(** A role that is neither ['user'] nor ['assistant']. *)
Definition unknown_role (t : Turn) : Prop :=
  role t <> "user" /\ role t <> "assistant".

(** Column [col] of the example has a turn with such a role. *)
Definition has_unknown_role (col : string) (example : Example) : Prop :=
  exists conv, example !! col = Some conv /\ Exists unknown_role conv.

(** The instances [_collator] is meant for: no context, the column present. *)
Definition mixture_ready (col : string) (example : Example) : Prop :=
  example !! "prompt" = None /\ is_Some (example !! col).


(** A role the collators know. *)
Definition known_role (t : Turn) : Prop := role t = "user" \/ role t = "assistant".

(** An instance with the columns the collator of [dataset_format] reads. *)
Definition fits_collator (dataset_format : string) (r : Example) : Prop :=
  if uses_mixture dataset_format
  then dom r = ({["stage1_conv"; "stage2_conv"]} : gset string)
  else is_Some (r !! "conv") /\ dom r ⊆ ({["prompt"; "conv"]} : gset string).

(** Every column but ['prompt'] holds turns with known roles. *)
Definition columns_known (r : Example) : Prop :=
  forall col conv, col <> "prompt" -> r !! col = Some conv -> Forall known_role conv.

(** * Properties *)

(** ** The error monad *)

Lemma bind_Ok_inv {A B : Type} (r : result A) (f : A -> result B) (b : B) :
  r ≫= f = Ok b -> exists a, r = Ok a /\ f a = Ok b.
Proof. destruct r as [a|e]; simpl; [eauto | discriminate]. Qed.

Ltac inv_bind H :=
  let a := fresh "a" in
  let Ha := fresh "Ha" in
  apply bind_Ok_inv in H; destruct H as (a & Ha & H).

(** ** The loop over the turns *)

Lemma extends_refl c : extends c c.
Proof. exists [], [], []. by rewrite !app_nil_r. Qed.

Lemma extends_trans c1 c2 c3 : extends c1 c2 -> extends c2 c3 -> extends c1 c3.
Proof.
  intros (i1 & m1 & l1 & E1 & E2 & E3) (i2 & m2 & l2 & F1 & F2 & F3).
  exists (i1 ++ i2), (m1 ++ m2), (l1 ++ l2).
  rewrite F1, F2, F3, E1, E2, E3, !app_assoc. done.
Qed.

Lemma extend_ignored_extends acc output : extends acc (extend_ignored acc output).
Proof. by eexists _, _, _. Qed.

Lemma extend_supervised_extends acc output : extends acc (extend_supervised acc output).
Proof. by eexists _, _, _. Qed.

Lemma extend_ignored_labels acc output :
  labels_aligned acc -> labels_aligned (extend_ignored acc output).
Proof.
  unfold labels_aligned, extend_ignored; simpl; intros H.
  rewrite !length_app, length_replicate, H. done.
Qed.

Lemma extend_supervised_labels acc output :
  labels_aligned acc -> labels_aligned (extend_supervised acc output).
Proof.
  unfold labels_aligned, extend_supervised; simpl; intros H.
  rewrite !length_app, H. done.
Qed.

Lemma extend_ignored_mask acc output :
  aligned output -> mask_aligned acc -> mask_aligned (extend_ignored acc output).
Proof.
  unfold aligned, mask_aligned, extend_ignored; simpl; intros Ho H.
  rewrite !length_app, !length_drop, H, Ho. done.
Qed.

Lemma extend_supervised_mask acc output :
  aligned output -> mask_aligned acc -> mask_aligned (extend_supervised acc output).
Proof.
  unfold aligned, mask_aligned, extend_supervised; simpl; intros Ho H.
  rewrite !length_app, H, Ho. done.
Qed.

Lemma tokenizer_call_aligned tok text n :
  tokenizer_wf tok -> aligned (tokenizer_call tok text n).
Proof.
  intros [_ He]. unfold aligned, tokenizer_call; simpl.
  rewrite !length_take. specialize (He text). unfold aligned in He. lia.
Qed.

(** The three cases of [add_turn]. *)
Lemma add_turn_cases tok n acc t :
  (role t = "user" /\
   add_turn tok n acc t = Ok (extend_ignored acc (apply_chat_template tok [t] true))) \/
  (role t = "assistant" /\
   add_turn tok n acc t =
     Ok (extend_supervised acc (tokenizer_call tok (content t +:+ eos_token tok) n))) \/
  (role t <> "user" /\ role t <> "assistant" /\
   add_turn tok n acc t = Raise NotImplementedError).
Proof.
  unfold add_turn.
  destruct (String.eqb_spec (role t) "user") as [Hu|Hu]; [by left|].
  destruct (String.eqb_spec (role t) "assistant") as [Ha|Ha]; [by right; left|].
  by right; right.
Qed.

Lemma add_turn_extends tok n acc t acc' :
  add_turn tok n acc t = Ok acc' -> extends acc acc'.
Proof.
  destruct (add_turn_cases tok n acc t) as [[_ E]|[[_ E]|(_ & _ & E)]];
    rewrite E; intros [= <-];
    auto using extend_ignored_extends, extend_supervised_extends.
Qed.

Lemma add_turn_labels tok n acc t acc' :
  add_turn tok n acc t = Ok acc' -> labels_aligned acc -> labels_aligned acc'.
Proof.
  destruct (add_turn_cases tok n acc t) as [[_ E]|[[_ E]|(_ & _ & E)]];
    rewrite E; intros [= <-];
    auto using extend_ignored_labels, extend_supervised_labels.
Qed.

Lemma add_turn_mask tok n acc t acc' :
  tokenizer_wf tok ->
  add_turn tok n acc t = Ok acc' -> mask_aligned acc -> mask_aligned acc'.
Proof.
  intros Hwf.
  destruct (add_turn_cases tok n acc t) as [[_ E]|[[_ E]|(_ & _ & E)]];
    rewrite E; intros [= <-] H.
  - apply extend_ignored_mask; [apply Hwf | done].
  - apply extend_supervised_mask; [by apply tokenizer_call_aligned | done].
Qed.


Lemma conv_loop_extends tok n conv : forall acc acc',
  conv_loop tok n acc conv = Ok acc' -> extends acc acc'.
Proof.
  induction conv as [|t conv IH]; simpl; intros acc acc' H.
  - injection H as <-. apply extends_refl.
  - inv_bind H. eapply extends_trans; [eapply add_turn_extends | eapply IH]; eauto.
Qed.

Lemma conv_loop_labels tok n conv : forall acc acc',
  conv_loop tok n acc conv = Ok acc' -> labels_aligned acc -> labels_aligned acc'.
Proof.
  induction conv as [|t conv IH]; simpl; intros acc acc' H Hal.
  - by injection H as <-.
  - inv_bind H. eapply IH; [eauto|]. eapply add_turn_labels; eauto.
Qed.

Lemma conv_loop_mask tok n conv : forall acc acc',
  tokenizer_wf tok ->
  conv_loop tok n acc conv = Ok acc' -> mask_aligned acc -> mask_aligned acc'.
Proof.
  induction conv as [|t conv IH]; simpl; intros acc acc' Hwf H Hal.
  - by injection H as <-.
  - inv_bind H. eapply IH; [done|eauto|]. eapply add_turn_mask; eauto.
Qed.

(** A turn with a role the loop does not know stops it. *)
Lemma conv_loop_bad_role tok n conv : forall acc,
  Exists (fun t => role t <> "user" /\ role t <> "assistant") conv ->
  conv_loop tok n acc conv = Raise NotImplementedError.
Proof.
  induction conv as [|t conv IH]; intros acc Hex; [by inversion Hex|].
  simpl.
  destruct (add_turn_cases tok n acc t) as [[Hr E]|[[Hr E]|(_ & _ & E)]];
    rewrite E; simpl; try done;
    apply IH; inversion Hex as [? ? [Hu Ha]|]; subst; try done; congruence.
Qed.

Lemma conv_loop_total tok n conv : forall acc,
  Forall (fun t => role t = "user" \/ role t = "assistant") conv ->
  exists acc', conv_loop tok n acc conv = Ok acc'.
Proof.
  induction conv as [|t conv IH]; intros acc Hall; simpl; [eauto|].
  inversion Hall as [|? ? Ht Hrest]; subst.
  destruct (add_turn_cases tok n acc t) as [[_ E]|[[_ E]|(Hu & Ha & _)]];
    [rewrite E; simpl; auto .. | tauto].
Qed.

(** ** The prompt *)

Lemma init_seq_labels tok : labels_aligned (init_seq tok).
Proof. done. Qed.

Lemma init_seq_mask tok : mask_aligned (init_seq tok).
Proof. done. Qed.

Lemma add_prompt_extends tok flag g example acc :
  extends acc (add_prompt tok flag g example acc).1.
Proof.
  unfold add_prompt. destruct (example !! "prompt"); [|apply extends_refl].
  destruct (prompt_gate flag g) as [[] g']; simpl;
    auto using extends_refl, extend_ignored_extends.
Qed.

Lemma add_prompt_labels tok flag g example acc :
  labels_aligned acc -> labels_aligned (add_prompt tok flag g example acc).1.
Proof.
  unfold add_prompt. destruct (example !! "prompt"); [|done].
  destruct (prompt_gate flag g) as [[] g']; simpl; auto using extend_ignored_labels.
Qed.

Lemma add_prompt_mask tok flag g example acc :
  tokenizer_wf tok ->
  mask_aligned acc -> mask_aligned (add_prompt tok flag g example acc).1.
Proof.
  intros Hwf. unfold add_prompt. destruct (example !! "prompt"); [|done].
  destruct (prompt_gate flag g) as [[] g']; simpl; [|done].
  intros H. apply extend_ignored_mask; [apply Hwf | done].
Qed.

(** [compile_example] is the prompt step followed by the loop. *)
Lemma compile_example_inv tok n flag g example seq g' :
  compile_example tok n flag g example = Ok (seq, g') ->
  exists conv,
    example !! "conv" = Some conv /\
    g' = (add_prompt tok flag g example (init_seq tok)).2 /\
    conv_loop tok n (add_prompt tok flag g example (init_seq tok)).1 conv = Ok seq.
Proof.
  unfold compile_example.
  destruct (add_prompt tok flag g example (init_seq tok)) as [acc g1]; simpl.
  unfold getitem. destruct (example !! "conv") as [conv|]; simpl; [|done].
  intros H. inv_bind H. injection H as <- <-. eauto.
Qed.

(** The builder accepts every example that has a ['conv'] column of user
    and assistant turns. *)
Lemma compile_example_total tok n flag g example conv :
  example !! "conv" = Some conv ->
  Forall (fun t => role t = "user" \/ role t = "assistant") conv ->
  exists seq g', compile_example tok n flag g example = Ok (seq, g').
Proof.
  intros Hconv Hall. unfold compile_example, getitem.
  destruct (add_prompt tok flag g example (init_seq tok)) as [acc g1].
  rewrite Hconv. simpl.
  destruct (conv_loop_total tok n conv acc Hall) as [seq ->]. simpl. eauto.
Qed.


(** ** C1: supervision of user and assistant turns *)


(** ** C2: shape of a compiled sequence *)

(** The first position survives every extension. *)
Lemma extends_head c c' x y z :
  input_ids c !! 0%nat = Some x -> attention_mask c !! 0%nat = Some y ->
  labels c !! 0%nat = Some z -> extends c c' ->
  input_ids c' !! 0%nat = Some x /\ attention_mask c' !! 0%nat = Some y /\
  labels c' !! 0%nat = Some z.
Proof.
  intros Hx Hy Hz (i & m & l & -> & -> & ->).
  repeat split; by apply lookup_app_l_Some.
Qed.

Lemma compile_example_aligned tok n flag g example seq g' :
  tokenizer_wf tok ->
  compile_example tok n flag g example = Ok (seq, g') ->
  labels_aligned seq /\ mask_aligned seq.
Proof.
  intros Hwf Hc.
  apply compile_example_inv in Hc as (conv & _ & _ & Hloop). split.
  - eapply conv_loop_labels; [exact Hloop|].
    apply add_prompt_labels, init_seq_labels.
  - eapply conv_loop_mask; [done|exact Hloop|].
    by apply add_prompt_mask, init_seq_mask.
Qed.

(** C2. With a tokenizer whose attention masks are aligned with its ids,
    every sequence the builder compiles has three lists of one length, and
    its position 0 holds the beginning-of-sequence id with attention-mask 1
    and label [IGNORE_INDEX]. *)
Theorem C2_compiled_shape tok target_max_len flag g example seq g' :
  tokenizer_wf tok ->
  compile_example tok target_max_len flag g example = Ok (seq, g') ->
  length (input_ids seq) = length (attention_mask seq) /\
  length (attention_mask seq) = length (labels seq) /\
  input_ids seq !! 0%nat = Some (bos_token_id tok) /\
  attention_mask seq !! 0%nat = Some 1 /\
  labels seq !! 0%nat = Some IGNORE_INDEX.
Proof.
  intros Hwf Hc.
  apply compile_example_inv in Hc as (conv & _ & _ & Hloop).
  assert (Hl : labels_aligned seq).
  { eapply conv_loop_labels; [exact Hloop|].
    apply add_prompt_labels, init_seq_labels. }
  assert (Hm : mask_aligned seq).
  { eapply conv_loop_mask; [done|exact Hloop|].
    by apply add_prompt_mask, init_seq_mask. }
  unfold labels_aligned in Hl. unfold mask_aligned in Hm.
  split; [lia|]. split; [lia|].
  eapply (extends_head (init_seq tok)); [done..|].
  eapply extends_trans; [apply add_prompt_extends|].
  eapply conv_loop_extends; exact Hloop.
Qed.

Lemma toy_tok_wf : tokenizer_wf toy_tok.
Proof.
  split; intros; unfold aligned; simpl; unfold toy_template, toy_all_ones; simpl;
    by rewrite length_replicate.
Qed.


Lemma C2_compiled_shape_witness :
  length (input_ids toy_seq) = length (attention_mask toy_seq) /\
  length (attention_mask toy_seq) = length (labels toy_seq) /\
  input_ids toy_seq !! 0%nat = Some 1 /\
  attention_mask toy_seq !! 0%nat = Some 1 /\
  labels toy_seq !! 0%nat = Some IGNORE_INDEX.
Proof.
  exact (C2_compiled_shape toy_tok 10 false toy_rand toy_example toy_seq toy_rand
           toy_tok_wf eq_refl).
Defined.

(** ** MixtureTrainer.compute_loss *)

Section ComputeLoss.
Context {Output : Type}.
Variable stage2_ratio : Qc.
Variable inputs : gmap string Tensor.
Variables a2 b2 c2 a1 b1 c1 : Tensor.

(** The batch carries the six fields of a mixture batch. *)
Hypothesis Hin : inputs !! "input_ids" = Some a2.
Hypothesis Hat : inputs !! "attention_mask" = Some b2.
Hypothesis Hla : inputs !! "labels" = Some c2.
Hypothesis Hin1 : inputs !! "stage1_input_ids" = Some a1.
Hypothesis Hat1 : inputs !! "stage1_attention_mask" = Some b1.
Hypothesis Hla1 : inputs !! "stage1_labels" = Some c1.

(** What the forward pass sees for each stage. *)
Let unprefixed : gmap string Tensor :=
  <["input_ids" := a2]> (<["attention_mask" := b2]> (<["labels" := c2]> ∅)).
Let prefixed : gmap string Tensor :=
  <["input_ids" := a1]> (<["attention_mask" := b1]> (<["labels" := c1]> ∅)).

Lemma stage_inputs_unprefixed :
  stage_inputs inputs "input_ids" "attention_mask" "labels" = Ok unprefixed.
Proof using Hin Hat Hla. unfold stage_inputs, getitem. by rewrite Hin, Hat, Hla. Qed.

Lemma stage_inputs_prefixed :
  stage_inputs inputs "stage1_input_ids" "stage1_attention_mask" "stage1_labels"
  = Ok prefixed.
Proof using Hin1 Hat1 Hla1.
  unfold stage_inputs, getitem. by rewrite Hin1, Hat1, Hla1.
Qed.

(** What [compute_loss] returns and leaves in the window. *)
Lemma compute_loss_eq (model : gmap string Tensor -> Qc * Output)
    self return_outputs :
  compute_loss model stage2_ratio self inputs return_outputs =
  let lossA := (model prefixed).1 in
  let lossB := (model unprefixed).1 in
  let loss := ((1 - stage2_ratio) * lossA + stage2_ratio * lossB)%Qc in
  Ok ({| stage1_loss := stage1_loss self ++ [lossA];
         stage2_loss := stage2_loss self ++ [lossB];
         total_loss := total_loss self ++ [loss] |},
      (loss, if return_outputs then Some (model unprefixed).2 else None)).
Proof using All.
  unfold compute_loss.
  rewrite stage_inputs_unprefixed, stage_inputs_prefixed. simpl.
  by destruct return_outputs.
Qed.


(** C10. With [return_outputs=True] the outputs returned next to the
    combined loss are those of the forward pass on the unprefixed
    (stage-2) fields; those of the stage-1 pass are not returned. *)
Theorem C10_returned_outputs (model : gmap string Tensor -> Qc * Output) self :
  (exists self' loss,
     compute_loss model stage2_ratio self inputs true
       = Ok (self', (loss, Some (model unprefixed).2))) /\
  (forall model' : gmap string Tensor -> Qc * Output,
     (forall d, (model' d).1 = (model d).1) ->
     (model' unprefixed).2 = (model unprefixed).2 ->
     compute_loss model' stage2_ratio self inputs true
       = compute_loss model stage2_ratio self inputs true).
Proof using All.
  split; [eexists _, _; apply compute_loss_eq|].
  intros model' Hloss Hout. rewrite !compute_loss_eq. simpl.
  by rewrite !Hloss, Hout.
Qed.

End ComputeLoss.


Lemma C10_returned_outputs_witness :
  exists self' loss,
    compute_loss toy_model (1 / 2)%Qc empty_window toy_inputs true
      = Ok (self', (loss, Some [1; 98; 36])).
Proof.
  exact (proj1 (C10_returned_outputs (1 / 2)%Qc toy_inputs
           [[1; 98; 36]] [[1; 1; 1]] [[-100; 98; 36]]
           [[1; 3; 97; 5; 4]] [[1; 1; 1; 1; 1]] [[-100; -100; -100; -100; -100]]
           eq_refl eq_refl eq_refl eq_refl eq_refl eq_refl toy_model empty_window)).
Defined.

(** ** MixtureTrainer.log *)

Lemma window_ok_empty : window_ok empty_window.
Proof. done. Qed.


Lemma stack_mean_nonempty l : l <> [] -> stack_mean l = Ok (mean l).
Proof. by destruct l. Qed.

Section Log.
Context {Base : Type}.
Variable super_log : Base -> gmap string Qc -> Base * gmap string Qc.

(** Whatever the window, a successful [log] leaves it empty. *)
Lemma log_clears self base logs w b l :
  log super_log self base logs = Ok (w, b, l) -> w = empty_window.
Proof using Type.
  unfold log. intros H. inv_bind H.
  destruct (super_log base a). by injection H as <- _ _.
Qed.

(** On an empty window [log] is the base method followed by the reset. *)
Lemma log_empty base logs :
  log super_log empty_window base logs
  = Ok (empty_window, (super_log base logs).1, (super_log base logs).2).
Proof using Type. unfold log. simpl. by destruct (super_log base logs). Qed.

(** C4. On a window whose three series have one length, [log] hands the
    base method the record it was given when the window is empty, and that
    record with the means of the three series under ['stage1_loss'],
    ['stage2_loss'] and ['total_loss'] when it is not; in both cases it
    returns with the window cleared. A second [log] right after it hands
    its record to the base method unchanged and returns as well. *)
Theorem C4_log_flushes self base logs :
  window_ok self ->
  exists injected,
    (total_loss self = [] -> injected = logs) /\
    (total_loss self <> [] ->
     injected =
       <["total_loss" := mean (total_loss self)]>
         (<["stage2_loss" := mean (stage2_loss self)]>
            (<["stage1_loss" := mean (stage1_loss self)]> logs))) /\
    log super_log self base logs
      = Ok (empty_window, (super_log base injected).1, (super_log base injected).2) /\
    forall logs',
      (log super_log self base logs ≫= fun '(self1, base1, _) =>
         log super_log self1 base1 logs')
      = Ok (empty_window,
            (super_log (super_log base injected).1 logs').1,
            (super_log (super_log base injected).1 logs').2).
Proof using Type.
  intros [H1 H2].
  assert (Hlog : exists injected,
    (total_loss self = [] -> injected = logs) /\
    (total_loss self <> [] ->
     injected =
       <["total_loss" := mean (total_loss self)]>
         (<["stage2_loss" := mean (stage2_loss self)]>
            (<["stage1_loss" := mean (stage1_loss self)]> logs))) /\
    log super_log self base logs
      = Ok (empty_window, (super_log base injected).1, (super_log base injected).2)).
  { unfold log. destruct (total_loss self) as [|x t] eqn:Et.
    - exists logs. simpl. split; [done|]. split; [done|].
      by destruct (super_log base logs).
    - assert (Hs1 : stage1_loss self <> []) by (by intros E; rewrite E in H1).
      assert (Hs2 : stage2_loss self <> []) by (by intros E; rewrite E in H2).
      exists (<["total_loss" := mean (x :: t)]>
                (<["stage2_loss" := mean (stage2_loss self)]>
                   (<["stage1_loss" := mean (stage1_loss self)]> logs))).
      split; [discriminate|]. split; [done|].
      rewrite (stack_mean_nonempty _ Hs1), (stack_mean_nonempty _ Hs2). simpl.
      by destruct (super_log base _). }
  destruct Hlog as (injected & He & Hne & Hlog).
  exists injected. repeat split; try done.
  intros logs'. rewrite Hlog. simpl. apply log_empty.
Qed.

End Log.

Lemma C4_log_flushes_witness :
  log toy_super_log
    {| stage1_loss := [1%Qc; Qc_of_Z 3]; stage2_loss := [Qc_of_Z 5; Qc_of_Z 7];
       total_loss := [Qc_of_Z 3; Qc_of_Z 5] |} [] ∅
  = Ok (empty_window,
        [ <["total_loss" := Qc_of_Z 4]>
            (<["stage2_loss" := Qc_of_Z 6]> (<["stage1_loss" := Qc_of_Z 2]> ∅)) ],
        <["total_loss" := Qc_of_Z 4]>
          (<["stage2_loss" := Qc_of_Z 6]> (<["stage1_loss" := Qc_of_Z 2]> ∅))).
Proof.
  destruct (C4_log_flushes toy_super_log
              {| stage1_loss := [1%Qc; Qc_of_Z 3]; stage2_loss := [Qc_of_Z 5; Qc_of_Z 7];
                 total_loss := [Qc_of_Z 3; Qc_of_Z 5] |} [] ∅
              (conj eq_refl eq_refl))
    as (injected & _ & Hne & Hlog & _).
  rewrite Hlog, (Hne ltac:(discriminate)). simpl.
  assert (E1 : mean [1%Qc; Qc_of_Z 3] = Qc_of_Z 2) by (by apply Qc_is_canon).
  assert (E2 : mean [Qc_of_Z 5; Qc_of_Z 7] = Qc_of_Z 6) by (by apply Qc_is_canon).
  assert (E3 : mean [Qc_of_Z 3; Qc_of_Z 5] = Qc_of_Z 4) by (by apply Qc_is_canon).
  by rewrite E1, E2, E3.
Defined.

(** ** Padding *)

Lemma pad_sequence_rows seqs v :
  seqs <> [] ->
  pad_sequence seqs v
  = Ok ((fun s => s ++ replicate (longest seqs - length s) v) <$> seqs).
Proof. by destruct seqs. Qed.

Lemma longest_ge seqs k s : seqs !! k = Some s -> (length s <= longest seqs)%nat.
Proof.
  intros H. apply max_list_elem_of_le.
  apply list_elem_of_lookup_2 with k. by rewrite list_lookup_fmap, H.
Qed.

(** A padded row: as long as the longest, the sequence first, then the
    padding value. *)
Lemma padded_row (s : list Z) (n : nat) (v : Z) :
  (length s <= n)%nat ->
  length (s ++ replicate (n - length s) v) = n /\
  take (length s) (s ++ replicate (n - length s) v) = s /\
  forall i, (length s <= i < n)%nat ->
    (s ++ replicate (n - length s) v) !! i = Some v.
Proof.
  intros Hle. split; [rewrite length_app, length_replicate; lia|].
  split; [apply take_app_length|].
  intros i Hi. rewrite lookup_app_r by lia. apply lookup_replicate_2. lia.
Qed.

(** Everything [compile_all] returns is aligned. *)
Lemma compile_all_aligned tok n flag instances : forall g batch g',
  tokenizer_wf tok ->
  compile_all tok n flag g instances = Ok (batch, g') ->
  length batch = length instances /\
  Forall (fun c => labels_aligned c /\ mask_aligned c) batch.
Proof.
  induction instances as [|ex rest IH]; simpl; intros g batch g' Hwf H.
  - by injection H as <- _.
  - inv_bind H. destruct a as [c g1]. inv_bind H. destruct a as [cs g2].
    injection H as <- _.
    destruct (IH _ _ _ Hwf Ha0) as [Hlen Hall].
    split; [simpl; lia|]. constructor; [|done].
    destruct (compile_example_aligned tok n flag g ex c g1 Hwf Ha) as [? ?]. done.
Qed.

Lemma aligned_lengths (batch : list Compiled) :
  Forall (fun c => labels_aligned c /\ mask_aligned c) batch ->
  longest (attention_mask <$> batch) = longest (input_ids <$> batch) /\
  longest (labels <$> batch) = longest (input_ids <$> batch).
Proof.
  assert (E : forall (f : Compiled -> list Z) c l,
             longest (f <$> c :: l) = Nat.max (length (f c)) (longest (f <$> l)))
    by done.
  induction 1 as [|c batch [Hl Hm] _ [IH1 IH2]]; [done|].
  unfold labels_aligned in Hl. unfold mask_aligned in Hm.
  by rewrite !E, Hl, Hm, IH1, IH2.
Qed.

(** C5. For a non-empty list of instances that compile, the collator returns
    the three fields with one row per instance, every row as long as the
    longest compiled sequence; a row starts with the compiled sequence and
    is filled up on the right with the pad id (the id of ["<|end_of_text|>"]
    when the tokenizer has no pad token), with attention-mask 0 and with
    label [IGNORE_INDEX]. *)
Theorem C5_padding tok target_max_len flag g instances batch g' :
  tokenizer_wf tok ->
  instances <> [] ->
  compile_all tok target_max_len flag g instances = Ok (batch, g') ->
  exists ids mask labs,
    causal_lm_call tok target_max_len flag g instances
    = Ok (<["input_ids" := ids]>
            (<["attention_mask" := mask]> (<["labels" := labs]> ∅)), g') /\
    length ids = length instances /\
    length mask = length instances /\
    length labs = length instances /\
    forall k c, batch !! k = Some c ->
      exists r1 r2 r3,
        ids !! k = Some r1 /\ mask !! k = Some r2 /\ labs !! k = Some r3 /\
        length r1 = longest (input_ids <$> batch) /\
        length r2 = longest (input_ids <$> batch) /\
        length r3 = longest (input_ids <$> batch) /\
        take (length (input_ids c)) r1 = input_ids c /\
        take (length (input_ids c)) r2 = attention_mask c /\
        take (length (input_ids c)) r3 = labels c /\
        forall i, (length (input_ids c) <= i < longest (input_ids <$> batch))%nat ->
          r1 !! i = Some (match _pad_token tok with
                          | Some _ => pad_token_id tok
                          | None => convert_tokens_to_ids tok "<|end_of_text|>"
                          end) /\
          r2 !! i = Some 0 /\
          r3 !! i = Some IGNORE_INDEX.
Proof.
  intros Hwf Hne Hc.
  destruct (compile_all_aligned _ _ _ _ _ _ _ Hwf Hc) as [Hlen Hall].
  assert (Hb : batch <> []) by (intros ->; by destruct instances).
  destruct (aligned_lengths batch Hall) as [Lm Ll].
  unfold causal_lm_call, apply_padding. rewrite Hc. simpl.
  rewrite !pad_sequence_rows by (by destruct batch). simpl.
  eexists _, _, _. split; [reflexivity|].
  rewrite !length_fmap. repeat split; try done.
  intros k c Hk. rewrite Lm, Ll.
  pose proof (longest_ge (input_ids <$> batch) k (input_ids c)) as Hge.
  rewrite list_lookup_fmap, Hk in Hge. specialize (Hge eq_refl).
  rewrite Forall_lookup in Hall. destruct (Hall k c Hk) as [Hl Hm].
  unfold labels_aligned in Hl. unfold mask_aligned in Hm.
  rewrite !list_lookup_fmap, Hk. simpl.
  destruct (padded_row (input_ids c) _ (pad_token_of tok) Hge) as (P1 & P2 & P3).
  destruct (padded_row (attention_mask c) (longest (input_ids <$> batch)) 0)
    as (M1 & M2 & M3); [lia|].
  destruct (padded_row (labels c) (longest (input_ids <$> batch)) IGNORE_INDEX)
    as (L1 & L2 & L3); [lia|].
  eexists _, _, _. repeat split; try reflexivity; try done.
  - by rewrite <- Hm.
  - by rewrite <- Hl.
  - apply P3. lia.
  - apply M3. lia.
  - apply L3. lia.
Qed.

Lemma C5_padding_witness :
  exists ids mask labs,
    causal_lm_call toy_tok 10 false toy_rand [toy_example_prompt; toy_example]
    = Ok (<["input_ids" := ids]>
            (<["attention_mask" := mask]> (<["labels" := labs]> ∅)), toy_rand) /\
    length ids = 2%nat /\ length mask = 2%nat /\ length labs = 2%nat.
Proof.
  destruct (C5_padding toy_tok 10 false toy_rand [toy_example_prompt; toy_example]
              _ toy_rand toy_tok_wf ltac:(discriminate) eq_refl)
    as (ids & mask & labs & Hc & H1 & H2 & H3 & _).
  by exists ids, mask, labs.
Defined.

(** ** C6: the context *)

Lemma add_prompt_included tok flag g example prompt acc :
  example !! "prompt" = Some prompt ->
  flag = false \/ g 0%nat mod 2 = 0 ->
  (add_prompt tok flag g example acc).1
  = extend_ignored acc (apply_chat_template tok prompt false).
Proof.
  intros Hp Hgate. unfold add_prompt, prompt_gate. rewrite Hp.
  destruct flag; simpl; [|done].
  destruct Hgate as [|Heven]; [done|]. by rewrite Heven.
Qed.


(** An included context sits right after the beginning-of-sequence id and
    is labelled [IGNORE_INDEX] throughout. *)
Lemma context_included tok n flag g example prompt seq g' :
  example !! "prompt" = Some prompt ->
  compile_example tok n flag g example = Ok (seq, g') ->
  flag = false \/ g 0%nat mod 2 = 0 ->
  context_rendered_with false tok prompt seq /\
  forall i,
    (i < length (drop 1 (enc_input_ids (apply_chat_template tok prompt false))))%nat ->
    labels seq !! (1 + i)%nat = Some IGNORE_INDEX.
Proof.
  intros Hp Hc Hgate.
  apply compile_example_inv in Hc as (conv & Hconv & _ & Hloop).
  rewrite (add_prompt_included _ _ _ _ _ _ Hp Hgate) in Hloop.
  apply conv_loop_extends in Hloop as (ids & mask & labs & Ei & _ & El).
  simpl in Ei, El. unfold context_rendered_with. rewrite Ei, El.
  set (ctx := drop 1 (enc_input_ids (apply_chat_template tok prompt false))).
  split.
  - simpl. by rewrite drop_0, take_app_length.
  - intros i Hi. simpl.
    rewrite lookup_app_l by (by rewrite length_replicate).
    by apply lookup_replicate_2.
Qed.




(** ** C7 and C8: faults of sequence compilation *)

(** The loop raises nothing but [NotImplementedError]. *)
Lemma conv_loop_raises tok n conv : forall acc e,
  conv_loop tok n acc conv = Raise e -> e = NotImplementedError.
Proof.
  induction conv as [|t conv IH]; simpl; intros acc e H; [done|].
  destruct (add_turn_cases tok n acc t) as [[_ E]|[[_ E]|(_ & _ & E)]];
    rewrite E in H; simpl in H; eauto. by injection H.
Qed.

Lemma compile_example_unknown_role tok n flag g example :
  has_unknown_role "conv" example ->
  compile_example tok n flag g example = Raise NotImplementedError.
Proof.
  intros (conv & Hconv & Hex). unfold compile_example, getitem.
  destruct (add_prompt tok flag g example (init_seq tok)) as [acc g1].
  rewrite Hconv. simpl. by rewrite conv_loop_bad_role.
Qed.

Lemma compile_example_raises tok n flag g example e :
  is_Some (example !! "conv") ->
  compile_example tok n flag g example = Raise e -> e = NotImplementedError.
Proof.
  intros [conv Hconv]. unfold compile_example, getitem.
  destruct (add_prompt tok flag g example (init_seq tok)) as [acc g1].
  rewrite Hconv. simpl.
  destruct (conv_loop tok n acc conv) eqn:E; simpl; [done|].
  intros [= <-]. by eapply conv_loop_raises.
Qed.

Lemma compile_all_unknown_role tok n flag instances : forall g,
  Forall (fun ex => is_Some (ex !! "conv")) instances ->
  Exists (has_unknown_role "conv") instances ->
  compile_all tok n flag g instances = Raise NotImplementedError.
Proof.
  induction instances as [|ex rest IH]; intros g Hall Hex; [by inversion Hex|].
  inversion Hall as [|? ? Hconv Hrest]; subst. simpl.
  destruct (compile_example tok n flag g ex) as [[c g1]|e] eqn:E; simpl.
  - inversion Hex as [? ? Hbad|? ? Hbad]; subst.
    + by rewrite compile_example_unknown_role in E.
    + by rewrite IH.
  - by rewrite (compile_example_raises _ _ _ _ _ _ Hconv E).
Qed.

Lemma _compile_example_prompt tok n col example :
  is_Some (example !! "prompt") ->
  _compile_example tok n col example = Raise AssertionError.
Proof. intros [p Hp]. unfold _compile_example. by rewrite Hp. Qed.

Lemma _compile_example_no_prompt tok n col example conv :
  example !! "prompt" = None -> example !! col = Some conv ->
  _compile_example tok n col example = conv_loop tok n (init_seq tok) conv.
Proof.
  intros Hp Hc. unfold _compile_example, getitem. by rewrite Hp, Hc.
Qed.

Lemma _compile_all_unknown_role tok n col instances :
  Forall (mixture_ready col) instances ->
  Exists (has_unknown_role col) instances ->
  _compile_all tok n col instances = Raise NotImplementedError.
Proof.
  induction instances as [|ex rest IH]; intros Hall Hex; [by inversion Hex|].
  inversion Hall as [|? ? [Hp [conv Hconv]] Hrest]; subst. simpl.
  rewrite (_compile_example_no_prompt _ _ _ _ _ Hp Hconv).
  destruct (conv_loop tok n (init_seq tok) conv) as [c|e] eqn:E; simpl.
  - inversion Hex as [? ? (conv' & Hconv' & Hbad)|? ? Hbad]; subst.
    + rewrite Hconv in Hconv'. injection Hconv' as <-.
      by rewrite conv_loop_bad_role in E.
    + by rewrite IH.
  - by rewrite (conv_loop_raises _ _ _ _ _ E).
Qed.

Lemma _compile_all_raises tok n col instances e :
  Forall (mixture_ready col) instances ->
  _compile_all tok n col instances = Raise e -> e = NotImplementedError.
Proof.
  induction instances as [|ex rest IH]; intros Hall H; [done|].
  inversion Hall as [|? ? [Hp [conv Hconv]] Hrest]; subst. simpl in H.
  rewrite (_compile_example_no_prompt _ _ _ _ _ Hp Hconv) in H.
  destruct (conv_loop tok n (init_seq tok) conv) as [c|e'] eqn:E; simpl in H.
  - destruct (_compile_all tok n col rest) as [cs|e'] eqn:E'; simpl in H; [done|].
    injection H as <-. by apply IH.
  - injection H as <-. by eapply conv_loop_raises.
Qed.

Lemma _compile_all_length tok n col instances batch :
  _compile_all tok n col instances = Ok batch -> length batch = length instances.
Proof.
  revert batch. induction instances as [|ex rest IH]; simpl; intros batch H.
  - by injection H as <-.
  - inv_bind H. inv_bind H. injection H as <-. simpl. by rewrite (IH a0).
Qed.

Lemma apply_padding_total tok batch :
  batch <> [] -> exists d, apply_padding tok batch = Ok d.
Proof.
  intros Hne. unfold apply_padding.
  rewrite !pad_sequence_rows by (by destruct batch). simpl. eauto.
Qed.

(** On instances it is meant for, [_collator] returns a batch or raises
    [NotImplementedError]. *)
Lemma _collator_outcome tok n instances col :
  instances <> [] ->
  Forall (mixture_ready col) instances ->
  (exists d, _collator tok n instances col = Ok d) \/
  _collator tok n instances col = Raise NotImplementedError.
Proof.
  intros Hne Hall. unfold _collator.
  destruct (_compile_all tok n col instances) as [batch|e] eqn:E; simpl.
  - left. apply apply_padding_total. intros ->.
    apply _compile_all_length in E. by destruct instances.
  - right. by rewrite (_compile_all_raises _ _ _ _ _ Hall E).
Qed.

(** C7. A turn whose role is neither ['user'] nor ['assistant'] makes the
    collator raise [NotImplementedError] instead of returning a batch: the
    single-stage collator on instances that have a ['conv'] column, and
    [_collator] and the mixture collator on instances without context that
    have the column(s) read. *)
Theorem C7_unknown_role tok target_max_len :
  (forall flag g instances,
     Forall (fun ex => is_Some (ex !! "conv")) instances ->
     Exists (has_unknown_role "conv") instances ->
     causal_lm_call tok target_max_len flag g instances = Raise NotImplementedError) /\
  (forall instances col,
     Forall (mixture_ready col) instances ->
     Exists (has_unknown_role col) instances ->
     _collator tok target_max_len instances col = Raise NotImplementedError) /\
  (forall instances,
     Forall (mixture_ready "stage1_conv") instances ->
     Forall (mixture_ready "stage2_conv") instances ->
     Exists (fun ex => has_unknown_role "stage1_conv" ex \/
                       has_unknown_role "stage2_conv" ex) instances ->
     mixture_call tok target_max_len instances = Raise NotImplementedError).
Proof.
  assert (Hcol : forall instances col,
     Forall (mixture_ready col) instances ->
     Exists (has_unknown_role col) instances ->
     _collator tok target_max_len instances col = Raise NotImplementedError).
  { intros instances col Hall Hex. unfold _collator.
    by rewrite _compile_all_unknown_role. }
  split; [|split; [exact Hcol|]].
  - intros flag g instances Hall Hex. unfold causal_lm_call.
    by rewrite compile_all_unknown_role.
  - intros instances H1 H2 Hex. unfold mixture_call.
    assert (Hne : instances <> []) by (intros ->; inversion Hex).
    destruct (_collator_outcome tok target_max_len instances "stage2_conv" Hne H2)
      as [[d Hd]|Hd]; rewrite Hd; simpl; [|done].
    rewrite Hcol; [done|done|].
    apply Exists_exists in Hex as (ex & Hin & [Hbad|Hbad]).
    + apply Exists_exists. eauto.
    + exfalso. assert (Hx : Exists (has_unknown_role "stage2_conv") instances)
        by (apply Exists_exists; eauto).
      rewrite (Hcol _ _ H2 Hx) in Hd. discriminate.
Qed.

Lemma C7_unknown_role_witness :
  causal_lm_call toy_tok 10 false toy_rand [toy_example; toy_bad_example]
    = Raise NotImplementedError /\
  _collator toy_tok 10 [toy_mixture; toy_bad_mixture] "stage1_conv"
    = Raise NotImplementedError /\
  mixture_call toy_tok 10 [toy_mixture; toy_bad_mixture] = Raise NotImplementedError.
Proof.
  destruct (C7_unknown_role toy_tok 10) as (H1 & H2 & H3).
  assert (Hsys : unknown_role {| role := "system"; content := "x" |})
    by (split; discriminate).
  assert (Hbad : has_unknown_role "stage1_conv" toy_bad_mixture).
  { eexists. split; [reflexivity|]. by apply Exists_cons_hd. }
  split; [|split].
  - apply H1.
    + repeat constructor; by eexists.
    + apply Exists_cons_tl, Exists_cons_hd.
      eexists. split; [reflexivity|]. by apply Exists_cons_tl, Exists_cons_hd.
  - apply H2.
    + repeat constructor; by eexists.
    + by apply Exists_cons_tl, Exists_cons_hd.
  - apply H3.
    + repeat constructor; by eexists.
    + repeat constructor; by eexists.
    + apply Exists_cons_tl, Exists_cons_hd. by left.
Defined.

Lemma _compile_all_prompt_first tok n col pre : forall example post batch,
  _compile_all tok n col pre = Ok batch ->
  is_Some (example !! "prompt") ->
  _compile_all tok n col (pre ++ example :: post) = Raise AssertionError.
Proof.
  induction pre as [|ex pre IH]; intros example post batch Hpre Hp; simpl.
  - by rewrite _compile_example_prompt.
  - simpl in Hpre. inv_bind Hpre. inv_bind Hpre.
    rewrite Ha. simpl. by rewrite (IH example post a0).
Qed.

Lemma _compile_all_prompt tok n col instances :
  Exists (fun ex => is_Some (ex !! "prompt")) instances ->
  exists e, _compile_all tok n col instances = Raise e.
Proof.
  induction instances as [|ex rest IH]; intros Hex; [by inversion Hex|]. simpl.
  destruct (_compile_example tok n col ex) as [c|e] eqn:E; simpl; [|eauto].
  inversion Hex as [? ? Hp|? ? Hp]; subst.
  - by rewrite _compile_example_prompt in E.
  - destruct (IH Hp) as [e ->]. simpl. eauto.
Qed.

(** C8. In [_collator] an example that has a ['prompt'] key fails the
    assertion: compiling it raises [AssertionError], so does [_collator] when
    the examples before it compile, and neither [_collator] nor the mixture
    collator returns a batch for instances that contain such an example. *)
Theorem C8_mixture_rejects_prompt tok target_max_len :
  (forall col example,
     is_Some (example !! "prompt") ->
     _compile_example tok target_max_len col example = Raise AssertionError) /\
  (forall col pre example post batch,
     _compile_all tok target_max_len col pre = Ok batch ->
     is_Some (example !! "prompt") ->
     _collator tok target_max_len (pre ++ example :: post) col = Raise AssertionError) /\
  (forall instances,
     Exists (fun ex => is_Some (ex !! "prompt")) instances ->
     (forall col, exists e, _collator tok target_max_len instances col = Raise e) /\
     exists e, mixture_call tok target_max_len instances = Raise e).
Proof.
  split; [intros; by apply _compile_example_prompt|]. split.
  - intros col pre example post batch Hpre Hp. unfold _collator.
    by rewrite (_compile_all_prompt_first _ _ _ _ _ _ _ Hpre Hp).
  - intros instances Hex.
    assert (Hcol : forall col,
      exists e, _collator tok target_max_len instances col = Raise e).
    { intros col. unfold _collator.
      destruct (_compile_all_prompt tok target_max_len col _ Hex) as [e ->].
      simpl. eauto. }
    split; [exact Hcol|]. unfold mixture_call.
    destruct (Hcol "stage2_conv") as [e ->]. simpl. eauto.
Qed.

Lemma C8_mixture_rejects_prompt_witness :
  _collator toy_tok 10 [toy_mixture; toy_mixture_prompt] "stage2_conv"
    = Raise AssertionError /\
  exists e, mixture_call toy_tok 10 [toy_mixture; toy_mixture_prompt] = Raise e.
Proof.
  destruct (C8_mixture_rejects_prompt toy_tok 10) as (_ & H2 & H3). split.
  - apply (H2 "stage2_conv" [toy_mixture] toy_mixture_prompt [] _ eq_refl).
    by eexists.
  - apply H3. apply Exists_cons_tl, Exists_cons_hd. by eexists.
Defined.

(** ** C9: the context history *)

(** The turns of a context alternate, user first. *)
Lemma context_turns_role strip ctx i t :
  make_context_turns strip ctx !! i = Some t ->
  role t = if Nat.even i then "user" else "assistant".
Proof.
  unfold make_context_turns. rewrite list_lookup_imap.
  destruct (_ !! i) as [turn|]; simpl; [|done].
  intros [= <-]. by destruct (Nat.even i).
Qed.

Lemma take_all_but_last {A : Type} (l : list A) (x : A) :
  take (length (l ++ [x]) - 1) (l ++ [x]) = l.
Proof.
  rewrite length_app. simpl.
  replace (length l + 1 - 1)%nat with (length l) by lia. apply take_app_length.
Qed.

(** C9. When the context has at least one turn, [make_context_history]
    returns a history; a trailing user turn is left out of it and nothing
    else is, so the history is empty or ends with an assistant turn. The
    collator renders exactly this history for the example built from the
    row. *)
Theorem C9_trailing_user_turn strip ctx :
  (forall t,
     last (make_context_turns strip ctx) = Some t ->
     exists h,
       make_context_history strip ctx = Ok h /\
       (role t = "user" -> make_context_turns strip ctx = h ++ [t]) /\
       (role t <> "user" -> h = make_context_turns strip ctx) /\
       (h = [] \/ exists t', last h = Some t' /\ role t' = "assistant")) /\
  (forall get_student_input_prompt ex example tok target_max_len g seq g',
     context ex = ctx ->
     make_w_prompt_example strip get_student_input_prompt ex = Ok example ->
     compile_example tok target_max_len false g example = Ok (seq, g') ->
     exists h,
       make_context_history strip ctx = Ok h /\
       example !! "prompt" = Some h /\
       context_rendered_with false tok h seq).
Proof.
  split.
  - intros t Hlast. unfold make_context_history. rewrite Hlast.
    pose proof Hlast as Hl. apply last_Some in Hl as [l' Hl'].
    assert (Hrole : role t = if Nat.even (length l') then "user" else "assistant").
    { apply (context_turns_role strip ctx). rewrite Hl'.
      by rewrite lookup_app_r, Nat.sub_diag. }
    destruct (String.eqb_spec (role t) "user") as [Hu|Hu].
    + eexists. split; [reflexivity|]. rewrite Hl', take_all_but_last.
      split; [done|]. split; [done|].
      destruct (last l') as [t'|] eqn:Hl2; [|left; by apply last_None].
      right. exists t'. split; [done|].
      apply last_Some in Hl2 as [l'' ->].
      assert (Ht' : role t' = if Nat.even (length l'') then "user" else "assistant").
      { apply (context_turns_role strip ctx). rewrite Hl', <- app_assoc.
        by rewrite lookup_app_r, Nat.sub_diag. }
      rewrite length_app in Hrole. simpl in Hrole.
      replace (length l'' + 1)%nat with (S (length l'')) in Hrole by lia.
      rewrite Nat.even_succ, <- Nat.negb_even in Hrole.
      destruct (Nat.even (length l'')); simpl in Hrole; [congruence|done].
    + eexists. split; [reflexivity|]. split; [done|]. split; [done|].
      right. exists t. split; [done|].
      destruct (Nat.even (length l')); [done|done].
  - intros gp ex example tok n g seq g' Hctx Hex Hc.
    unfold make_w_prompt_example in Hex. rewrite Hctx in Hex.
    inv_bind Hex. inv_bind Hex. injection Hex as <-.
    exists a. split; [done|]. split; [by rewrite lookup_insert_eq|].
    eapply context_included; [|exact Hc|by left]. by rewrite lookup_insert_eq.
Qed.

Lemma C9_trailing_user_turn_witness :
  make_context_history strip_ascii "<USER>: hi <AGENT>: hello <USER>: bye"
  = Ok [ {| role := "user"; content := "hi" |};
         {| role := "assistant"; content := "hello" |} ].
Proof.
  destruct (proj1 (C9_trailing_user_turn strip_ascii
                     "<USER>: hi <AGENT>: hello <USER>: bye")
              {| role := "user"; content := "bye" |} eq_refl)
    as (h & Hh & Hdrop & _).
  rewrite Hh. f_equal.
  specialize (Hdrop eq_refl).
  change (make_context_turns strip_ascii "<USER>: hi <AGENT>: hello <USER>: bye")
    with ([ {| role := "user"; content := "hi" |};
            {| role := "assistant"; content := "hello" |} ]
            ++ [ {| role := "user"; content := "bye" |} ]) in Hdrop.
  by apply app_inj_tail in Hdrop as [<- _].
Defined.


(** * Further properties of the collators and the trainer *)

(** ** The small instances, evaluated *)

Lemma mixture_call_toy : mixture_call toy_tok 10 [toy_mixture] = Ok toy_inputs.
Proof. vm_compute. reflexivity. Qed.

Lemma causal_lm_call_toy :
  causal_lm_call toy_tok 10 false toy_rand [toy_example] = Ok (toy_single_batch, toy_rand).
Proof. vm_compute. reflexivity. Qed.

Lemma plain_call_toy :
  DataCollatorForCausalLM_call toy_tok toy_render 4 10 false false
    [toy_instance; toy_instance2] = Ok toy_plain_batch.
Proof. vm_compute. reflexivity. Qed.

Lemma plain_call_toy_pad_eos :
  DataCollatorForCausalLM_call toy_tok_pad_eos toy_render 10 10 false false
    [toy_instance] = Ok toy_plain_batch_pad_eos.
Proof. vm_compute. reflexivity. Qed.

Lemma plain_call_toy_predict :
  DataCollatorForCausalLM_call toy_tok toy_render 10 10 true true
    [toy_instance; toy_instance2] = Ok toy_plain_batch_predict.
Proof. vm_compute. reflexivity. Qed.

(** ** The mixture batch *)

#[global] Instance stage1_prefix_inj : Inj (=) (=) (String.append "stage1_").
Proof. intros x y H. by simplify_eq/=. Qed.

Lemma stage1_keys_kmap (d : gmap string Tensor) :
  stage1_keys d = kmap (String.append "stage1_") d.
Proof. reflexivity. Qed.

(** What [apply_padding] returns has the three fields and nothing else. *)
Lemma apply_padding_inv tok batch d :
  apply_padding tok batch = Ok d ->
  exists a b c,
    d = <["input_ids" := a]> (<["attention_mask" := b]> (<["labels" := c]> ∅)).
Proof.
  unfold apply_padding. intros H. inv_bind H. inv_bind H. inv_bind H.
  injection H as <-. eauto.
Qed.

Lemma _collator_inv tok n instances col d :
  _collator tok n instances col = Ok d ->
  exists a b c,
    d = <["input_ids" := a]> (<["attention_mask" := b]> (<["labels" := c]> ∅)).
Proof. unfold _collator. intros H. inv_bind H. by eapply apply_padding_inv. Qed.

Lemma mixture_call_inv tok n instances d :
  mixture_call tok n instances = Ok d ->
  exists a2 b2 c2 a1 b1 c1,
    _collator tok n instances "stage2_conv"
      = Ok (<["input_ids" := a2]> (<["attention_mask" := b2]> (<["labels" := c2]> ∅))) /\
    _collator tok n instances "stage1_conv"
      = Ok (<["input_ids" := a1]> (<["attention_mask" := b1]> (<["labels" := c1]> ∅))) /\
    d = <["input_ids" := a2]> (<["attention_mask" := b2]> (<["labels" := c2]>
          (<["stage1_input_ids" := a1]> (<["stage1_attention_mask" := b1]>
             (<["stage1_labels" := c1]> ∅))))).
Proof.
  unfold mixture_call. intros H. inv_bind H. inv_bind H. injection H as <-.
  destruct (_collator_inv _ _ _ _ _ Ha) as (a2 & b2 & c2 & ->).
  destruct (_collator_inv _ _ _ _ _ Ha0) as (a1 & b1 & c1 & ->).
  exists a2, b2, c2, a1, b1, c1. split; [done|]. split; [done|].
  rewrite stage1_keys_kmap.
  rewrite !(kmap_insert (String.append "stage1_")), kmap_empty. simpl (_ +:+ _).
  apply map_eq. intros k. rewrite lookup_union.
  destruct (decide (k = "input_ids")) as [->|]; [done|].
  destruct (decide (k = "attention_mask")) as [->|]; [done|].
  destruct (decide (k = "labels")) as [->|]; [done|].
  do 2 rewrite (lookup_insert_ne _ "input_ids"), (lookup_insert_ne _ "attention_mask"),
    (lookup_insert_ne _ "labels") by done.
  rewrite lookup_empty. by destruct (_ !! k).
Qed.

(** X1. A batch of the mixture collator has exactly six fields: the three
    [_collator] built from ['stage2_conv'] under their own names and the
    three it built from ['stage1_conv'] under the [stage1_] names; merging
    the two dictionaries loses and overwrites nothing. *)
Theorem mixture_batch_fields tok target_max_len instances d :
  mixture_call tok target_max_len instances = Ok d ->
  exists stage2_dict stage1_dict,
    _collator tok target_max_len instances "stage2_conv" = Ok stage2_dict /\
    _collator tok target_max_len instances "stage1_conv" = Ok stage1_dict /\
    dom d = ({["input_ids"; "attention_mask"; "labels"; "stage1_input_ids";
               "stage1_attention_mask"; "stage1_labels"]} : gset string) /\
    forall k, k ∈ ["input_ids"; "attention_mask"; "labels"] ->
      is_Some (d !! k) /\ d !! k = stage2_dict !! k /\
      is_Some (d !! ("stage1_" +:+ k)) /\ d !! ("stage1_" +:+ k) = stage1_dict !! k.
Proof.
  intros H.
  destruct (mixture_call_inv _ _ _ _ H) as (a2 & b2 & c2 & a1 & b1 & c1 & H2 & H1 & ->).
  eexists _, _. split; [exact H2|]. split; [exact H1|]. split.
  - rewrite !dom_insert_L, dom_empty_L. set_solver.
  - intros k Hk. repeat (apply elem_of_cons in Hk as [->|Hk]); try (by inversion Hk);
      repeat split; try done; by eexists.
Qed.

Lemma mixture_batch_fields_witness :
  mixture_call toy_tok 10 [toy_mixture] = Ok toy_inputs /\
  dom toy_inputs = ({["input_ids"; "attention_mask"; "labels"; "stage1_input_ids";
                      "stage1_attention_mask"; "stage1_labels"]} : gset string).
Proof.
  split; [exact mixture_call_toy|].
  destruct (mixture_batch_fields toy_tok 10 [toy_mixture] toy_inputs mixture_call_toy)
    as (s2 & s1 & _ & _ & Hdom & _).
  exact Hdom.
Defined.

(** X2. [compute_loss] accepts every batch of the mixture collator: it
    raises no [KeyError], the stage-1 forward pass is run on the dictionary
    [_collator] built from ['stage1_conv'] and the stage-2 pass on the one
    built from ['stage2_conv'], and each of the three series of the window
    gets one more entry. *)
Theorem compute_loss_on_mixture_batch {Output : Type}
    (model : gmap string Tensor -> Qc * Output) stage2_ratio self return_outputs
    tok target_max_len instances d :
  mixture_call tok target_max_len instances = Ok d ->
  exists stage2_dict stage1_dict ret,
    _collator tok target_max_len instances "stage2_conv" = Ok stage2_dict /\
    _collator tok target_max_len instances "stage1_conv" = Ok stage1_dict /\
    compute_loss model stage2_ratio self d return_outputs
    = Ok ({| stage1_loss := stage1_loss self ++ [(model stage1_dict).1];
             stage2_loss := stage2_loss self ++ [(model stage2_dict).1];
             total_loss := total_loss self ++
               [((1 - stage2_ratio) * (model stage1_dict).1
                 + stage2_ratio * (model stage2_dict).1)%Qc] |}, ret).
Proof.
  intros H.
  destruct (mixture_call_inv _ _ _ _ H) as (a2 & b2 & c2 & a1 & b1 & c1 & H2 & H1 & ->).
  eexists _, _, _. split; [exact H2|]. split; [exact H1|].
  by erewrite compute_loss_eq.
Qed.

Lemma compute_loss_on_mixture_batch_witness :
  exists self' ret,
    compute_loss toy_model (1 / 2)%Qc empty_window toy_inputs false = Ok (self', ret) /\
    length (total_loss self') = 1%nat.
Proof.
  destruct (compute_loss_on_mixture_batch toy_model (1 / 2)%Qc empty_window false
              toy_tok 10 [toy_mixture] toy_inputs mixture_call_toy)
    as (s2 & s1 & ret & _ & _ & Hc).
  eexists _, ret. split; [exact Hc|]. reflexivity.
Defined.

(** X3. [compute_loss] rejects every batch of the single-stage collator
    with [KeyError]: such a batch has no [stage1_] fields. *)
Theorem compute_loss_on_single_stage_batch {Output : Type}
    (model : gmap string Tensor -> Qc * Output) stage2_ratio self return_outputs
    tok target_max_len flag g instances d g' :
  causal_lm_call tok target_max_len flag g instances = Ok (d, g') ->
  compute_loss model stage2_ratio self d return_outputs = Raise KeyError.
Proof.
  unfold causal_lm_call. intros H. inv_bind H. destruct a as [batch g1].
  inv_bind H. injection H as <- _.
  apply apply_padding_inv in Ha0 as (x & y & z & ->).
  reflexivity.
Qed.

Lemma compute_loss_on_single_stage_batch_witness :
  causal_lm_call toy_tok 10 false toy_rand [toy_example] = Ok (toy_single_batch, toy_rand) /\
  compute_loss toy_model (1 / 2)%Qc empty_window toy_single_batch false = Raise KeyError.
Proof.
  split; [exact causal_lm_call_toy|].
  exact (compute_loss_on_single_stage_batch toy_model (1 / 2)%Qc empty_window false
           toy_tok 10 false toy_rand [toy_example] toy_single_batch toy_rand
           causal_lm_call_toy).
Defined.

(** ** What [log] reports after a run of training steps *)









(** ** DataCollatorForCausalLM *)

Lemma getitems_raises {V : Type} (instances : list (gmap string V)) k e :
  getitems instances k = Raise e -> e = KeyError.
Proof.
  induction instances as [|ex rest IH]; simpl; [done|]. unfold getitem.
  destruct (ex !! k); simpl; [|by intros [= <-]].
  destruct (getitems rest k); simpl; [done|]. intros [= <-]. by apply IH.
Qed.

Lemma getitems_missing {V : Type} (instances : list (gmap string V)) k :
  Exists (fun ex => ex !! k = None) instances ->
  getitems instances k = Raise KeyError.
Proof.
  induction 1 as [ex rest Hex|ex rest _ IH]; simpl; unfold getitem.
  - by rewrite Hex.
  - destruct (ex !! k); simpl; [|done]. by rewrite IH.
Qed.

Lemma getitems_total {V : Type} (instances : list (gmap string V)) k :
  Forall (fun ex => is_Some (ex !! k)) instances ->
  exists vs, getitems instances k = Ok vs.
Proof.
  induction 1 as [|ex rest [v Hv] _ [vs IH]]; simpl; [eauto|].
  unfold getitem. rewrite Hv. simpl. rewrite IH. simpl. eauto.
Qed.

(** The pairs the loop runs over, instance by instance. *)
Lemma zip_getitems {A B : Type} (f : string -> A) (g : string -> B)
    (instances : list (gmap string string)) : forall inputs outputs,
  getitems instances "input" = Ok inputs ->
  getitems instances "output" = Ok outputs ->
  length (zip (f <$> inputs) (g <$> outputs)) = length instances /\
  forall k ex, instances !! k = Some ex ->
    exists i o, ex !! "input" = Some i /\ ex !! "output" = Some o /\
      zip (f <$> inputs) (g <$> outputs) !! k = Some (f i, g o).
Proof.
  induction instances as [|ex0 rest IH]; simpl; intros inputs outputs Hi Ho.
  - injection Hi as <-. injection Ho as <-. split; [done|]. by intros k ex.
  - inv_bind Hi. inv_bind Hi. injection Hi as <-.
    inv_bind Ho. inv_bind Ho. injection Ho as <-.
    destruct (IH _ _ Ha0 Ha2) as [Hlen Hk].
    split; [rewrite !fmap_cons; simpl; f_equal; exact Hlen|].
    intros [|k] ex Hex; simpl in *.
    + injection Hex as <-. unfold getitem in Ha, Ha1.
      destruct (ex0 !! "input") as [i|]; [|done].
      destruct (ex0 !! "output") as [o|]; [|done].
      injection Ha as <-. injection Ha1 as <-. eauto.
    + by apply Hk.
Qed.

Lemma source_target_loop_eq tos pwg pairs :
  source_target_loop tos pwg pairs
  = ((fun p => if pwg then p.1 else p.1 ++ p.2) <$> pairs,
     if pwg then []
     else (fun p => (if tos then p.1 else replicate (length p.1) IGNORE_INDEX) ++ p.2)
            <$> pairs).
Proof.
  induction pairs as [|[s t] rest IH]; simpl; [by destruct pwg|].
  rewrite IH. by destruct pwg, tos.
Qed.

Lemma pad_sequence_inv seqs v rows :
  pad_sequence seqs v = Ok rows ->
  seqs <> [] /\
  rows = (fun s => s ++ replicate (longest seqs - length s) v) <$> seqs.
Proof. destruct seqs; [done|]. intros [= <-]. done. Qed.

Lemma longest_same_lengths (l1 l2 : list (list Z)) :
  length <$> l1 = length <$> l2 -> longest l1 = longest l2.
Proof. unfold longest. by intros ->. Qed.

(** What the collator returns, row by row: [L] is the length of the longest
    unpadded row. *)
Lemma causal_lm_plain_inv tok render sml tml tos pwg instances d :
  DataCollatorForCausalLM_call tok render sml tml tos pwg instances = Ok d ->
  exists ids labs L,
    d !! "input_ids" = Some (IntTensor ids) /\
    d !! "attention_mask" = Some (BoolTensor (tensor_ne ids (pad_token_of tok))) /\
    d !! "labels" = (if pwg then None else Some (IntTensor labs)) /\
    length ids = length instances /\
    (pwg = false -> length labs = length instances) /\
    forall k ex, instances !! k = Some ex ->
      exists i o, ex !! "input" = Some i /\ ex !! "output" = Some o /\
        let s := source_tokens tok render sml i in
        let t := target_tokens tok tml o in
        let real := if pwg then s else s ++ t in
        (length real <= L)%nat /\
        ids !! k = Some (real ++ replicate (L - length real) (pad_token_of tok)) /\
        (pwg = false ->
         labs !! k = Some (((if tos then s else replicate (length s) IGNORE_INDEX) ++ t)
                             ++ replicate (L - length real) IGNORE_INDEX)).
Proof.
  unfold DataCollatorForCausalLM_call. intros H.
  apply bind_Ok_inv in H as (inputs & Hi & H).
  apply bind_Ok_inv in H as (outputs & Ho & H).
  rewrite source_target_loop_eq in H.
  set (S := fun i => enc_input_ids
                (tokenizer_call tok (render [ {| role := "user"; content := i |} ] true) sml)).
  set (T := fun o => enc_input_ids (tokenizer_call tok (o +:+ eos_token tok) tml)).
  rewrite <- !list_fmap_compose in H.
  change (zip _ _) with (zip (S <$> inputs) (T <$> outputs)) in H.
  destruct (zip_getitems S T instances inputs outputs Hi Ho) as [Hlen Hk].
  set (pairs := zip (S <$> inputs) (T <$> outputs)) in *.
  apply bind_Ok_inv in H as (ids & Hids & H).
  apply pad_sequence_inv in Hids as [Hne ->].
  set (rows := (fun p : list Z * list Z => if pwg then p.1 else p.1 ++ p.2) <$> pairs) in *.
  destruct pwg; simpl in H.
  - injection H as <-. eexists _, [], (longest rows).
    split; [done|]. split; [done|]. split; [done|].
    split; [by rewrite length_fmap; unfold rows; rewrite length_fmap|]. split; [done|].
    intros k ex Hex. destruct (Hk k ex Hex) as (i & o & Ei & Eo & Ep).
    exists i, o. split; [done|]. split; [done|]. simpl.
    split; [|split; [|done]].
    + apply (longest_ge rows k). unfold rows. by rewrite list_lookup_fmap, Ep.
    + rewrite list_lookup_fmap. unfold rows. by rewrite list_lookup_fmap, Ep.
  - apply bind_Ok_inv in H as (ol & Hl & H). apply bind_Ok_inv in Hl as (labs & Hl & E).
    injection E as <-. injection H as <-.
    apply pad_sequence_inv in Hl as [_ ->].
    set (lrows := (fun p : list Z * list Z =>
                     (if tos then p.1 else replicate (length p.1) IGNORE_INDEX) ++ p.2)
                    <$> pairs) in *.
    assert (HL : longest lrows = longest rows).
    { apply longest_same_lengths. unfold lrows, rows.
      rewrite <- !list_fmap_compose. apply list_fmap_ext. intros _ [s t] _. simpl.
      destruct tos; rewrite !length_app, ?length_replicate; done. }
    eexists _, _, (longest rows).
    split; [done|]. split; [done|]. split; [done|].
    split; [by rewrite length_fmap; unfold rows; rewrite length_fmap|].
    split; [by intros _; rewrite length_fmap; unfold lrows; rewrite length_fmap|].
    intros k ex Hex. destruct (Hk k ex Hex) as (i & o & Ei & Eo & Ep).
    exists i, o. split; [done|]. split; [done|]. simpl.
    split; [|split].
    + apply (longest_ge rows k). unfold rows. by rewrite list_lookup_fmap, Ep.
    + rewrite list_lookup_fmap. unfold rows. by rewrite list_lookup_fmap, Ep.
    + intros _. rewrite list_lookup_fmap, HL. unfold lrows.
      rewrite list_lookup_fmap, Ep. simpl.
      change (S i) with (source_tokens tok render sml i).
      change (T o) with (target_tokens tok tml o).
      do 4 f_equal. destruct tos; rewrite !length_app, ?length_replicate; done.
Qed.

(** X5. In training mode ([predict_with_generate] false) the collator
    returns [input_ids] and [labels] with one row per instance, all rows of
    one length. The row of an instance holds the source tokens (the rendered
    user prompt cut to [source_max_len]) followed by the target tokens (the
    output with the end-of-sequence token, cut to [target_max_len]) and the
    padding. Its labels are [IGNORE_INDEX] over the source, or the source
    tokens themselves when [train_on_source] is set, then the target tokens,
    then [IGNORE_INDEX] over the padding. *)
Theorem plain_collator_training_rows tok render source_max_len target_max_len
    train_on_source instances d :
  DataCollatorForCausalLM_call tok render source_max_len target_max_len
    train_on_source false instances = Ok d ->
  exists ids labs L,
    d !! "input_ids" = Some (IntTensor ids) /\
    d !! "labels" = Some (IntTensor labs) /\
    length ids = length instances /\ length labs = length instances /\
    forall k ex, instances !! k = Some ex ->
      exists i o row lrow,
        ex !! "input" = Some i /\ ex !! "output" = Some o /\
        ids !! k = Some row /\ labs !! k = Some lrow /\
        length row = L /\ length lrow = L /\
        let s := source_tokens tok render source_max_len i in
        let t := target_tokens tok target_max_len o in
        row = (s ++ t) ++ replicate (L - length (s ++ t)) (pad_token_of tok) /\
        lrow = ((if train_on_source then s else replicate (length s) IGNORE_INDEX) ++ t)
                 ++ replicate (L - length (s ++ t)) IGNORE_INDEX.
Proof.
  intros H.
  destruct (causal_lm_plain_inv _ _ _ _ _ _ _ _ H)
    as (ids & labs & L & Hi & _ & Hl & Hn & Hm & Hk).
  exists ids, labs, L. split; [done|]. split; [done|]. split; [done|].
  split; [by apply Hm|].
  intros k ex Hex. destruct (Hk k ex Hex) as (i & o & Ei & Eo & Hle & Hrow & Hlrow).
  simpl in Hle, Hrow, Hlrow. specialize (Hlrow eq_refl).
  eexists i, o, _, _. split; [done|]. split; [done|].
  split; [exact Hrow|]. split; [exact Hlrow|].
  split; [rewrite length_app, length_replicate; lia|].
  split; [|done].
  rewrite length_app in Hle.
  destruct train_on_source; rewrite !length_app, !length_replicate; lia.
Qed.

Lemma plain_collator_training_rows_witness :
  DataCollatorForCausalLM_call toy_tok toy_render 4 10 false false
    [toy_instance; toy_instance2] = Ok toy_plain_batch /\
  exists ids labs,
    toy_plain_batch !! "input_ids" = Some (IntTensor ids) /\
    toy_plain_batch !! "labels" = Some (IntTensor labs) /\
    length ids = 2%nat /\ length labs = 2%nat.
Proof.
  split; [exact plain_call_toy|].
  destruct (plain_collator_training_rows _ _ _ _ _ _ _ plain_call_toy)
    as (ids & labs & L & Hi & Hl & Hn & Hm & _).
  by exists ids, labs.
Defined.

(** X6. The attention mask of the collator is [input_ids.ne(pad)]: in the
    row of an instance it is false on every padded position and also on
    every real token that equals the pad id, and true on the other real
    tokens. *)
Theorem plain_collator_attention_mask tok render source_max_len target_max_len
    train_on_source predict_with_generate instances d :
  DataCollatorForCausalLM_call tok render source_max_len target_max_len
    train_on_source predict_with_generate instances = Ok d ->
  exists mask L,
    d !! "attention_mask" = Some (BoolTensor mask) /\
    length mask = length instances /\
    forall k ex, instances !! k = Some ex ->
      exists i o,
        ex !! "input" = Some i /\ ex !! "output" = Some o /\
        let s := source_tokens tok render source_max_len i in
        let t := target_tokens tok target_max_len o in
        let real := if predict_with_generate then s else s ++ t in
        mask !! k
        = Some (((fun x => negb (x =? pad_token_of tok)) <$> real)
                  ++ replicate (L - length real) false).
Proof.
  intros H.
  destruct (causal_lm_plain_inv _ _ _ _ _ _ _ _ H)
    as (ids & labs & L & _ & Hmask & _ & Hn & _ & Hk).
  exists (tensor_ne ids (pad_token_of tok)), L. split; [done|].
  split; [unfold tensor_ne; by rewrite length_fmap|].
  intros k ex Hex. destruct (Hk k ex Hex) as (i & o & Ei & Eo & _ & Hrow & _).
  exists i, o. split; [done|]. split; [done|]. simpl in *.
  unfold tensor_ne. rewrite list_lookup_fmap, Hrow. simpl.
  by rewrite fmap_app, fmap_replicate, Z.eqb_refl.
Qed.

Lemma plain_collator_attention_mask_witness :
  DataCollatorForCausalLM_call toy_tok_pad_eos toy_render 10 10 false false
    [toy_instance] = Ok toy_plain_batch_pad_eos /\
  exists mask,
    toy_plain_batch_pad_eos !! "attention_mask" = Some (BoolTensor mask) /\
    length mask = 1%nat.
Proof.
  split; [exact plain_call_toy_pad_eos|].
  destruct (plain_collator_attention_mask _ _ _ _ _ _ _ _ plain_call_toy_pad_eos)
    as (mask & L & Hm & Hn & _).
  by exists mask.
Defined.

(** X7. With [predict_with_generate] the batch has the two fields
    [input_ids] and [attention_mask] and no [labels]; a row holds the source
    tokens and the padding only, the target tokens are left out. *)
Theorem plain_collator_predict_rows tok render source_max_len target_max_len
    train_on_source instances d :
  DataCollatorForCausalLM_call tok render source_max_len target_max_len
    train_on_source true instances = Ok d ->
  d !! "labels" = None /\
  dom d = ({["input_ids"; "attention_mask"]} : gset string) /\
  exists ids L,
    d !! "input_ids" = Some (IntTensor ids) /\
    length ids = length instances /\
    forall k ex, instances !! k = Some ex ->
      exists i,
        ex !! "input" = Some i /\
        let s := source_tokens tok render source_max_len i in
        (length s <= L)%nat /\
        ids !! k = Some (s ++ replicate (L - length s) (pad_token_of tok)).
Proof.
  intros H.
  destruct (causal_lm_plain_inv _ _ _ _ _ _ _ _ H)
    as (ids & labs & L & Hi & _ & Hl & Hn & _ & Hk).
  split; [done|]. split.
  - unfold DataCollatorForCausalLM_call in H.
    inv_bind H. inv_bind H. rewrite source_target_loop_eq in H. inv_bind H.
    simpl in H. injection H as <-.
    rewrite !dom_insert_L, dom_empty_L. set_solver.
  - exists ids, L. split; [done|]. split; [done|].
    intros k ex Hex. destruct (Hk k ex Hex) as (i & o & Ei & _ & Hle & Hrow & _).
    exists i. by simpl in *.
Qed.

Lemma plain_collator_predict_rows_witness :
  DataCollatorForCausalLM_call toy_tok toy_render 10 10 true true
    [toy_instance; toy_instance2] = Ok toy_plain_batch_predict /\
  toy_plain_batch_predict !! "labels" = None /\
  dom toy_plain_batch_predict = ({["input_ids"; "attention_mask"]} : gset string).
Proof.
  split; [exact plain_call_toy_predict|].
  destruct (plain_collator_predict_rows _ _ _ _ _ _ _ plain_call_toy_predict)
    as (Hl & Hdom & _).
  by split.
Defined.

(** X8. On a non-empty list of instances the collator returns a batch
    exactly when every instance has the keys ['input'] and ['output']; an
    instance without one of them gives [KeyError], also with
    [predict_with_generate], where the output is not used. *)
Theorem plain_collator_keys tok render source_max_len target_max_len
    train_on_source predict_with_generate instances :
  instances <> [] ->
  (Forall (fun ex => is_Some (ex !! "input") /\ is_Some (ex !! "output")) instances ->
   exists d,
     DataCollatorForCausalLM_call tok render source_max_len target_max_len
       train_on_source predict_with_generate instances = Ok d) /\
  (Exists (fun ex => ex !! "input" = None \/ ex !! "output" = None) instances ->
   DataCollatorForCausalLM_call tok render source_max_len target_max_len
     train_on_source predict_with_generate instances = Raise KeyError).
Proof.
  intros Hne. split.
  - intros Hall.
    destruct (getitems_total instances "input") as [inputs Hi].
    { eapply Forall_impl; [exact Hall|]. by intros ? [? _]. }
    destruct (getitems_total instances "output") as [outputs Ho].
    { eapply Forall_impl; [exact Hall|]. by intros ? [_ ?]. }
    unfold DataCollatorForCausalLM_call. rewrite Hi, Ho. simpl.
    rewrite source_target_loop_eq, <- !list_fmap_compose.
    match goal with |- context [zip (?f <$> inputs) (?g <$> outputs)] =>
      destruct (zip_getitems f g instances inputs outputs Hi Ho) as [Hlen _];
      set (pairs := zip (f <$> inputs) (g <$> outputs)) in *
    end.
    assert (Hp : pairs <> []) by (intros E; rewrite E in Hlen; by destruct instances).
    destruct pairs as [|p pairs']; [done|].
    destruct predict_with_generate; simpl; eauto.
  - intros Hex. unfold DataCollatorForCausalLM_call.
    destruct (getitems instances "input") as [inputs|e] eqn:Hi; simpl;
      [|by rewrite (getitems_raises _ _ _ Hi)].
    destruct (getitems instances "output") as [outputs|e] eqn:Ho; simpl;
      [|by rewrite (getitems_raises _ _ _ Ho)].
    exfalso. apply Exists_exists in Hex as (ex & Hin & [Hm|Hm]).
    + rewrite getitems_missing in Hi; [done|]. apply Exists_exists. eauto.
    + rewrite getitems_missing in Ho; [done|]. apply Exists_exists. eauto.
Qed.

Lemma plain_collator_keys_witness :
  (exists d, DataCollatorForCausalLM_call toy_tok toy_render 10 10 false false
               [toy_instance] = Ok d) /\
  DataCollatorForCausalLM_call toy_tok toy_render 10 10 false true
    [toy_instance; <["input" := "hi"]> ∅] = Raise KeyError.
Proof.
  split.
  - apply (proj1 (plain_collator_keys toy_tok toy_render 10 10 false false
                    [toy_instance] ltac:(discriminate))).
    repeat constructor; by eexists.
  - apply (proj2 (plain_collator_keys toy_tok toy_render 10 10 false true
                    [toy_instance; <["input" := "hi"]> ∅] ltac:(discriminate))).
    apply Exists_cons_tl, Exists_cons_hd. by right.
Defined.

(** ** make_data_module: the rows and the collator that reads them *)

Lemma for_each_length {A B : Type} (f : A -> result B) (l : list A) : forall ys,
  for_each f l = Ok ys -> length ys = length l.
Proof.
  induction l as [|x l IH]; simpl; intros ys H.
  - by injection H as <-.
  - inv_bind H. inv_bind H. injection H as <-. simpl. by rewrite (IH a0).
Qed.

Lemma for_each_elem {A B : Type} (f : A -> result B) (l : list A) : forall ys y,
  for_each f l = Ok ys -> y ∈ ys -> exists x, x ∈ l /\ f x = Ok y.
Proof.
  induction l as [|x l IH]; simpl; intros ys y H Hy.
  - injection H as <-. by apply elem_of_nil in Hy.
  - inv_bind H. inv_bind H. injection H as <-.
    apply elem_of_cons in Hy as [->|Hy].
    + exists x. split; [by left|done].
    + destruct (IH _ _ Ha0 Hy) as (x' & Hin & Hx'). exists x'. split; [by right|done].
Qed.

Lemma for_each_total {A B : Type} (f : A -> result B) (l : list A) :
  Forall (fun x => exists y, f x = Ok y) l -> exists ys, for_each f l = Ok ys.
Proof.
  induction 1 as [|x l [y Hy] _ [ys IH]]; simpl; [eauto|].
  rewrite Hy. simpl. rewrite IH. simpl. eauto.
Qed.

Lemma for_each_raises {A B : Type} (f : A -> result B) (l : list A) e :
  for_each f l = Raise e -> exists x, x ∈ l /\ f x = Raise e.
Proof.
  induction l as [|x l IH]; simpl; [done|].
  destruct (f x) as [y|e'] eqn:E; simpl.
  - destruct (for_each f l) as [ys|e'] eqn:E'; simpl; [done|].
    intros [= ->]. destruct (IH eq_refl) as (x' & Hin & Hx').
    exists x'. split; [by right|done].
  - intros [= ->]. exists x. split; [by left|done].
Qed.

(** X9. [make_instance_conv] raises [IndexError] on an empty teacher
    conversation. Otherwise the conversation it builds is the student prompt
    as a user turn followed by the teacher turns in order, without the last
    one exactly when that is a user turn whose content contains
    ["[END_CONVERSATION]"]. *)
Theorem instance_conv_shape strip get_student_input_prompt ex :
  (teacher_output_conv ex = [] ->
   make_instance_conv strip get_student_input_prompt ex = Raise IndexError) /\
  (forall init t,
     teacher_output_conv ex = init ++ [t] ->
     make_instance_conv strip get_student_input_prompt ex
     = Ok ({| role := "user";
              content := strip (get_student_input_prompt (pseudo_input ex)) |}
             :: (if (role t =? "user")%string
                    && contains END_CONVERSATION_TOKEN (content t)
                 then init else init ++ [t]))).
Proof.
  unfold make_instance_conv. split.
  - by intros ->.
  - intros init t ->. rewrite last_snoc.
    by destruct (_ && _); [rewrite take_all_but_last|].
Qed.

Lemma instance_conv_shape_witness :
  make_instance_conv strip_ascii (fun i => " " +:+ i) (raw_of_row toy_row)
  = Ok [ {| role := "user"; content := "q" |};
         {| role := "assistant"; content := "a" |} ].
Proof.
  exact (proj2 (instance_conv_shape strip_ascii (fun i => " " +:+ i) (raw_of_row toy_row))
           [ {| role := "assistant"; content := "a" |} ]
           {| role := "user"; content := "ok [END_CONVERSATION]" |} eq_refl).
Defined.

Lemma instance_conv_known strip gp ex conv :
  Forall known_role (teacher_output_conv ex) ->
  make_instance_conv strip gp ex = Ok conv -> Forall known_role conv.
Proof.
  intros Hall. unfold make_instance_conv.
  destruct (last (teacher_output_conv ex)) as [t|]; [|done].
  intros [= <-]. constructor; [by left|].
  destruct (_ && _); [by apply Forall_take|done].
Qed.

Lemma instance_conv_total strip gp ex :
  teacher_output_conv ex <> [] -> exists conv, make_instance_conv strip gp ex = Ok conv.
Proof.
  intros Hne. unfold make_instance_conv.
  destruct (last (teacher_output_conv ex)) as [t|] eqn:E; [eauto|].
  by apply last_None in E.
Qed.

Lemma for_each_lookup {A B : Type} (f : A -> result B) (l : list A) : forall ys i y,
  for_each f l = Ok ys -> ys !! i = Some y -> exists x, l !! i = Some x /\ f x = Ok y.
Proof.
  induction l as [|x l IH]; simpl; intros ys i y H Hy.
  - by injection H as <-.
  - inv_bind H. inv_bind H. injection H as <-. destruct i as [|i]; simpl in *.
    + injection Hy as <-. eauto.
    + eauto.
Qed.

Lemma joint_row_dom s1 s2 :
  dom (joint_row s1 s2) = ({["stage1_conv"; "stage2_conv"]} : gset string).
Proof. unfold joint_row. rewrite !dom_insert_L, dom_empty_L. set_solver. Qed.

Lemma conv_row_dom c : dom (conv_row c) = ({["conv"]} : gset string).
Proof. unfold conv_row. rewrite !dom_insert_L, dom_empty_L. set_solver. Qed.

Lemma w_prompt_example_dom strip gp ex r :
  make_w_prompt_example strip gp ex = Ok r ->
  dom r = ({["prompt"; "conv"]} : gset string).
Proof.
  unfold make_w_prompt_example. intros H. inv_bind H. inv_bind H. injection H as <-.
  rewrite !dom_insert_L, dom_empty_L. set_solver.
Qed.

(** The rows of the joint format, one by one. *)
Lemma joint_rows_elem mydataset rows r :
  joint_rows mydataset = Ok rows -> r ∈ rows ->
  exists ex s2,
    ex ∈ ds mydataset /\
    make_instance_conv (fun s => s) (get_student_input_prompt mydataset) (raw_of_row ex)
      = Ok s2 /\
    r = joint_row (make_stage1_conv mydataset ex) s2.
Proof.
  unfold joint_rows. intros H Hr. inv_bind H. injection H as <-.
  apply elem_of_lookup_zip_with in Hr as (i & s1 & s2 & -> & H1 & H2).
  rewrite list_lookup_fmap in H1.
  destruct (for_each_lookup _ _ _ _ _ Ha H2) as (ex & Hex & Hs2).
  rewrite Hex in H1. injection H1 as <-.
  exists ex, s2. split; [by eapply list_elem_of_lookup_2|done].
Qed.

Lemma joint_rows_length mydataset rows :
  joint_rows mydataset = Ok rows -> length rows = length (ds mydataset).
Proof.
  unfold joint_rows. intros H. inv_bind H. injection H as <-.
  apply for_each_length in Ha.
  rewrite length_zip_with, length_fmap, Ha. lia.
Qed.

Lemma conv_rows_elem mydataset rows r :
  conv_rows mydataset = Ok rows -> r ∈ rows ->
  exists ex c,
    ex ∈ ds mydataset /\
    make_instance_conv (fun s => s) (get_student_input_prompt mydataset) (raw_of_row ex)
      = Ok c /\
    r = conv_row c.
Proof.
  unfold conv_rows. intros H Hr. inv_bind H. injection H as <-.
  apply list_elem_of_fmap in Hr as (c & -> & Hc).
  destruct (for_each_elem _ _ _ _ Ha Hc) as (ex & Hex & Hf). eauto.
Qed.

Lemma w_prompt_rows_elem strip mydataset rows r :
  w_prompt_rows strip mydataset = Ok rows -> r ∈ rows ->
  exists ex,
    ex ∈ ds mydataset /\
    make_w_prompt_example strip (get_student_input_prompt mydataset) (raw_of_row ex)
      = Ok r.
Proof. unfold w_prompt_rows. intros H Hr. by eapply for_each_elem. Qed.

(** What a successful [make_train_rows] went through. *)
Lemma make_train_rows_inv strip load context_id dataset dataset_format rows :
  make_train_rows strip load context_id dataset dataset_format = Ok rows ->
  context_id <> -1 /\ contains "agentbench-" dataset = true /\
  exists taskname,
    find_taskname dataset = Ok taskname /\
    (dataset_format = "cot-stage1_conv_stage2_joint_loss" /\
       joint_rows (load taskname) = Ok rows \/
     dataset_format = "conv-stage2" /\ conv_rows (load taskname) = Ok rows \/
     dataset_format = "conv-stage2_w_prompt" /\
       w_prompt_rows strip (load taskname) = Ok rows).
Proof.
  unfold make_train_rows.
  destruct (Z.eqb_spec context_id (-1)) as [|Hid]; [done|].
  destruct (contains "agentbench-" dataset); [|done].
  intros H. apply bind_Ok_inv in H as (taskname & Ht & H).
  split; [done|]. split; [done|]. exists taskname. split; [done|].
  destruct (String.eqb_spec dataset_format "cot-stage1_conv_stage2_joint_loss");
    [by left|].
  destruct (String.eqb_spec dataset_format "conv-stage2"); [by right; left|].
  destruct (String.eqb_spec dataset_format "conv-stage2_w_prompt"); [by right; right|].
  done.
Qed.

(** X10. When [make_data_module] gets as far as the training rows, the
    context id is not -1, the dataset name has a task name after
    ["agentbench-"], the format is one of the three it knows, there is one
    row per row of the dataset, and every row has exactly the columns of its
    format: the two stage columns for the joint-loss format, which is the
    only one that selects the mixture collator and trainer, ['conv'] for
    ['conv-stage2'], and ['prompt'] and ['conv'] for the format with a
    context. *)
Theorem train_rows_columns strip load context_id dataset dataset_format rows :
  make_train_rows strip load context_id dataset dataset_format = Ok rows ->
  context_id <> -1 /\
  exists taskname,
    find_taskname dataset = Ok taskname /\
    length rows = length (ds (load taskname)) /\
    (dataset_format = "cot-stage1_conv_stage2_joint_loss" /\
       uses_mixture dataset_format = true /\
       Forall (fun r => dom r = ({["stage1_conv"; "stage2_conv"]} : gset string)) rows \/
     dataset_format = "conv-stage2" /\
       uses_mixture dataset_format = false /\
       Forall (fun r => dom r = ({["conv"]} : gset string)) rows \/
     dataset_format = "conv-stage2_w_prompt" /\
       uses_mixture dataset_format = false /\
       Forall (fun r => dom r = ({["prompt"; "conv"]} : gset string)) rows).
Proof.
  intros H. apply make_train_rows_inv in H as (Hid & _ & taskname & Ht & H).
  split; [done|]. exists taskname. split; [done|].
  destruct H as [[-> H]|[[-> H]|[-> H]]].
  - split; [by apply joint_rows_length|]. left. split; [done|]. split; [done|].
    apply Forall_forall. intros r Hr.
    destruct (joint_rows_elem _ _ _ H Hr) as (ex & s2 & _ & _ & ->).
    apply joint_row_dom.
  - split.
    + unfold conv_rows in H. inv_bind H. injection H as <-.
      rewrite length_fmap. by eapply for_each_length.
    + right; left. split; [done|]. split; [done|].
      apply Forall_forall. intros r Hr.
      destruct (conv_rows_elem _ _ _ H Hr) as (ex & c & _ & _ & ->).
      apply conv_row_dom.
  - split; [by eapply for_each_length|].
    right; right. split; [done|]. split; [done|].
    apply Forall_forall. intros r Hr.
    destruct (w_prompt_rows_elem _ _ _ _ H Hr) as (ex & _ & Hex).
    by eapply w_prompt_example_dom.
Qed.

Lemma make_train_rows_toy :
  make_train_rows strip_ascii toy_dataset 0 "agentbench-os"
    "cot-stage1_conv_stage2_joint_loss" = Ok [toy_joint_row].
Proof. vm_compute. reflexivity. Qed.

Lemma train_rows_columns_witness :
  make_train_rows strip_ascii toy_dataset 0 "agentbench-os"
    "cot-stage1_conv_stage2_joint_loss" = Ok [toy_joint_row] /\
  exists taskname,
    find_taskname "agentbench-os" = Ok taskname /\
    length [toy_joint_row] = length (ds (toy_dataset taskname)).
Proof.
  split; [exact make_train_rows_toy|].
  destruct (train_rows_columns _ _ _ _ _ _ make_train_rows_toy)
    as (_ & taskname & Ht & Hlen & _).
  by exists taskname.
Defined.

(** ** The chosen collator on rows of the training set *)

Lemma compile_all_length tok n flag instances : forall g batch g',
  compile_all tok n flag g instances = Ok (batch, g') ->
  length batch = length instances.
Proof.
  induction instances as [|ex rest IH]; simpl; intros g batch g' H.
  - by injection H as <- _.
  - inv_bind H. destruct a as [c g1]. inv_bind H. destruct a as [cs g2].
    injection H as <- _. simpl. by rewrite (IH _ _ _ Ha0).
Qed.

Lemma compile_all_raises tok n flag instances : forall g e,
  Forall (fun ex => is_Some (ex !! "conv")) instances ->
  compile_all tok n flag g instances = Raise e -> e = NotImplementedError.
Proof.
  induction instances as [|ex rest IH]; simpl; intros g e Hall H; [done|].
  inversion Hall as [|? ? Hconv Hrest]; subst.
  destruct (compile_example tok n flag g ex) as [[c g1]|e'] eqn:E; simpl in H.
  - destruct (compile_all tok n flag g1 rest) as [[cs g2]|e'] eqn:E'; simpl in H;
      [done|]. injection H as <-. by eapply IH.
  - injection H as <-. by eapply compile_example_raises.
Qed.

Lemma compile_all_total tok n flag instances : forall g,
  Forall (fun ex => exists conv, ex !! "conv" = Some conv /\ Forall known_role conv)
    instances ->
  exists batch g', compile_all tok n flag g instances = Ok (batch, g').
Proof.
  induction instances as [|ex rest IH]; simpl; intros g Hall; [eauto|].
  inversion Hall as [|? ? (conv & Hconv & Hk) Hrest]; subst.
  destruct (compile_example_total tok n flag g ex conv Hconv Hk) as (seq & g1 & ->).
  simpl. destruct (IH g1 Hrest) as (batch & g2 & ->). simpl. eauto.
Qed.

Lemma _compile_all_total tok n col instances :
  Forall (fun ex => ex !! "prompt" = None /\
                    exists conv, ex !! col = Some conv /\ Forall known_role conv)
    instances ->
  exists batch, _compile_all tok n col instances = Ok batch.
Proof.
  induction 1 as [|ex rest (Hp & conv & Hconv & Hk) _ [batch IH]]; simpl; [eauto|].
  rewrite (_compile_example_no_prompt _ _ _ _ _ Hp Hconv).
  destruct (conv_loop_total tok n conv (init_seq tok) Hk) as [seq ->]. simpl.
  rewrite IH. simpl. eauto.
Qed.

(** The single-stage collator returns a batch or raises
    [NotImplementedError]. *)
Lemma causal_lm_call_outcome tok n flag g instances :
  instances <> [] ->
  Forall (fun ex => is_Some (ex !! "conv")) instances ->
  (exists d g', causal_lm_call tok n flag g instances = Ok (d, g')) \/
  causal_lm_call tok n flag g instances = Raise NotImplementedError.
Proof.
  intros Hne Hall. unfold causal_lm_call.
  destruct (compile_all tok n flag g instances) as [[batch g1]|e] eqn:E; simpl.
  - left. destruct (apply_padding_total tok batch) as [d ->]; [|simpl; eauto].
    intros ->. apply compile_all_length in E. by destruct instances.
  - right. by rewrite (compile_all_raises _ _ _ _ _ _ Hall E).
Qed.

Lemma mixture_call_outcome tok n instances :
  instances <> [] ->
  Forall (mixture_ready "stage1_conv") instances ->
  Forall (mixture_ready "stage2_conv") instances ->
  (exists d, mixture_call tok n instances = Ok d) \/
  mixture_call tok n instances = Raise NotImplementedError.
Proof.
  intros Hne H1 H2. unfold mixture_call.
  destruct (_collator_outcome tok n instances "stage2_conv" Hne H2) as [[d2 E2]|E2];
    rewrite E2; simpl; [|by right].
  destruct (_collator_outcome tok n instances "stage1_conv" Hne H1) as [[d1 E1]|E1];
    rewrite E1; simpl; [left; eauto|by right].
Qed.

Lemma fits_mixture_ready r col :
  dom r = ({["stage1_conv"; "stage2_conv"]} : gset string) ->
  col = "stage1_conv" \/ col = "stage2_conv" ->
  mixture_ready col r.
Proof.
  intros Hdom Hcol. split.
  - apply not_elem_of_dom. rewrite Hdom.
    rewrite elem_of_union, !elem_of_singleton. by intros [|].
  - apply elem_of_dom. rewrite Hdom.
    rewrite elem_of_union, !elem_of_singleton. tauto.
Qed.

(** The rows fit the collator of their format. *)
Lemma train_rows_fit strip load context_id dataset dataset_format rows :
  make_train_rows strip load context_id dataset dataset_format = Ok rows ->
  Forall (fits_collator dataset_format) rows.
Proof.
  intros H. apply make_train_rows_inv in H as (_ & _ & taskname & _ & H).
  apply Forall_forall. intros r Hr. unfold fits_collator.
  destruct H as [[-> H]|[[-> H]|[-> H]]]; simpl.
  - destruct (joint_rows_elem _ _ _ H Hr) as (ex & s2 & _ & _ & ->).
    apply joint_row_dom.
  - destruct (conv_rows_elem _ _ _ H Hr) as (ex & c & _ & _ & ->).
    rewrite conv_row_dom. split; [by eexists|set_solver].
  - destruct (w_prompt_rows_elem _ _ _ _ H Hr) as (ex & _ & Hex).
    rewrite (w_prompt_example_dom _ _ _ _ Hex). split; [|done].
    apply elem_of_dom. rewrite (w_prompt_example_dom _ _ _ _ Hex). set_solver.
Qed.

Lemma train_rows_known strip load context_id dataset dataset_format rows :
  make_train_rows strip load context_id dataset dataset_format = Ok rows ->
  (forall taskname, find_taskname dataset = Ok taskname ->
     Forall (fun ex => Forall known_role (row_teacher_output_conv ex))
       (ds (load taskname))) ->
  Forall columns_known rows.
Proof.
  intros H Hteacher. apply make_train_rows_inv in H as (_ & _ & taskname & Ht & H).
  specialize (Hteacher taskname Ht). rewrite Forall_forall in Hteacher.
  apply Forall_forall. intros r Hr col conv Hcol Hconv.
  destruct H as [[-> H]|[[-> H]|[-> H]]].
  - destruct (joint_rows_elem _ _ _ H Hr) as (ex & s2 & Hex & Hs2 & ->).
    unfold joint_row in Hconv.
    destruct (decide (col = "stage1_conv")) as [->|];
      [rewrite lookup_insert_eq in Hconv; injection Hconv as <-;
       unfold make_stage1_conv; repeat apply Forall_cons_2;
       [by left|by right|apply Forall_nil_2]|].
    rewrite lookup_insert_ne in Hconv by done.
    destruct (decide (col = "stage2_conv")) as [->|];
      [|by rewrite lookup_insert_ne in Hconv].
    rewrite lookup_insert_eq in Hconv. injection Hconv as <-.
    eapply instance_conv_known; [|exact Hs2]. by apply Hteacher.
  - destruct (conv_rows_elem _ _ _ H Hr) as (ex & c & Hex & Hc & ->).
    unfold conv_row in Hconv.
    destruct (decide (col = "conv")) as [->|];
      [|by rewrite lookup_insert_ne in Hconv].
    rewrite lookup_insert_eq in Hconv. injection Hconv as <-.
    eapply instance_conv_known; [|exact Hc]. by apply Hteacher.
  - destruct (w_prompt_rows_elem _ _ _ _ H Hr) as (ex & Hex & Hw).
    unfold make_w_prompt_example in Hw. inv_bind Hw. inv_bind Hw. injection Hw as <-.
    rewrite lookup_insert_ne in Hconv by done.
    destruct (decide (col = "conv")) as [->|];
      [|by rewrite lookup_insert_ne in Hconv].
    rewrite lookup_insert_eq in Hconv. injection Hconv as <-.
    eapply instance_conv_known; [|exact Ha0]. by apply Hteacher.
Qed.

(** X11. The collator chosen for a format, called on a non-empty batch of
    rows [make_data_module] built for that format, finds its columns and
    passes the context assertion: it returns a batch or raises
    [NotImplementedError], never [KeyError], [AssertionError] or an error of
    the padding. When all the turns of the teacher conversations of the
    dataset are user or assistant turns it returns a batch. *)
Theorem chosen_collator_on_rows strip load context_id dataset dataset_format rows
    tok target_max_len flag g instances :
  make_train_rows strip load context_id dataset dataset_format = Ok rows ->
  instances <> [] ->
  Forall (fun ex => ex ∈ rows) instances ->
  ((exists d g', data_collator tok target_max_len flag g dataset_format instances
                 = Ok (d, g')) \/
   data_collator tok target_max_len flag g dataset_format instances
   = Raise NotImplementedError) /\
  ((forall taskname, find_taskname dataset = Ok taskname ->
      Forall (fun ex => Forall known_role (row_teacher_output_conv ex))
        (ds (load taskname))) ->
   exists d g', data_collator tok target_max_len flag g dataset_format instances
                = Ok (d, g')).
Proof.
  intros H Hne Hin.
  pose proof (train_rows_fit _ _ _ _ _ _ H) as Hfit.
  rewrite Forall_forall in Hfit, Hin.
  assert (Hfits : Forall (fits_collator dataset_format) instances).
  { apply Forall_forall. intros ex Hex. by apply Hfit, Hin. }
  unfold data_collator, fits_collator in *.
  destruct (uses_mixture dataset_format) eqn:Hmix.
  - assert (H1 : Forall (mixture_ready "stage1_conv") instances).
    { eapply Forall_impl; [exact Hfits|]. intros r Hr.
      apply fits_mixture_ready; [done|by left]. }
    assert (H2 : Forall (mixture_ready "stage2_conv") instances).
    { eapply Forall_impl; [exact Hfits|]. intros r Hr.
      apply fits_mixture_ready; [done|by right]. }
    split.
    + destruct (mixture_call_outcome tok target_max_len instances Hne H1 H2)
        as [[d E]|E]; rewrite E; simpl; [left; eauto|by right].
    + intros Hteacher.
      pose proof (train_rows_known _ _ _ _ _ _ H Hteacher) as Hk.
      rewrite Forall_forall in Hk.
      assert (Hcol : forall col, col = "stage1_conv" \/ col = "stage2_conv" ->
                exists d, _collator tok target_max_len instances col = Ok d).
      { intros col Hcol. unfold _collator.
        destruct (_compile_all_total tok target_max_len col instances) as [batch Hb].
        - apply Forall_forall. intros ex Hex.
          assert (Hr : mixture_ready col ex).
          { apply fits_mixture_ready; [|done].
            rewrite Forall_forall in Hfits. by apply Hfits. }
          destruct Hr as [Hp [conv Hconv]]. split; [done|]. exists conv.
          split; [done|]. apply (Hk ex (Hin ex Hex) col); [|done].
          by destruct Hcol as [-> | ->].
        - rewrite Hb. simpl. apply apply_padding_total. intros ->.
          apply _compile_all_length in Hb. by destruct instances. }
      unfold mixture_call.
      destruct (Hcol "stage2_conv") as [d2 ->]; [by right|].
      destruct (Hcol "stage1_conv") as [d1 ->]; [by left|]. simpl. eauto.
  - assert (Hconv : Forall (fun ex => is_Some (ex !! "conv")) instances).
    { eapply Forall_impl; [exact Hfits|]. by intros r [Hr _]. }
    split; [by apply causal_lm_call_outcome|].
    intros Hteacher.
    pose proof (train_rows_known _ _ _ _ _ _ H Hteacher) as Hk.
    rewrite Forall_forall in Hk.
    unfold causal_lm_call.
    destruct (compile_all_total tok target_max_len flag instances g) as (batch & g1 & Hb).
    { apply Forall_forall. intros ex Hex.
      rewrite Forall_forall in Hconv. destruct (Hconv ex Hex) as [conv Hc].
      exists conv. split; [done|]. by apply (Hk ex (Hin ex Hex) "conv"). }
    rewrite Hb. simpl.
    destruct (apply_padding_total tok batch) as [d ->]; [|simpl; eauto].
    intros ->. apply compile_all_length in Hb. by destruct instances.
Qed.

Lemma chosen_collator_on_rows_witness :
  exists d g',
    data_collator toy_tok 10 false toy_rand "cot-stage1_conv_stage2_joint_loss"
      [toy_joint_row] = Ok (d, g').
Proof.
  apply (proj2 (chosen_collator_on_rows strip_ascii toy_dataset 0 "agentbench-os"
                  "cot-stage1_conv_stage2_joint_loss" [toy_joint_row]
                  toy_tok 10 false toy_rand [toy_joint_row]
                  make_train_rows_toy ltac:(discriminate)
                  ltac:(repeat constructor))).
  intros taskname _. repeat constructor; by right.
Defined.

(** ** find_all_linear_names *)

Lemma linear_names_fold {Module : Type} (isinstance : Module -> LinearClass -> bool)
    cls (l : list (string * Module)) : forall (acc : gset string) name,
  name ∈ foldl (fun (acc : gset string) '(name, module) =>
                  if isinstance module cls then acc ∪ {[module_leaf name]} else acc)
               acc l
  <-> name ∈ acc \/
      exists full m, (full, m) ∈ l /\ isinstance m cls = true /\ name = module_leaf full.
Proof.
  induction l as [|[full m] l IH]; intros acc name; simpl.
  - split; [by left|]. intros [H|(full & m & H & _)]; [done|].
    by apply elem_of_nil in H.
  - rewrite IH. split.
    + intros [H|(full' & m' & Hin & Hi & ->)].
      * destruct (isinstance m cls) eqn:E; [|by left].
        apply elem_of_union in H as [H|H]; [by left|].
        apply elem_of_singleton in H as ->. right. exists full, m.
        split; [by left|done].
      * right. exists full', m'. split; [by right|done].
    + intros [H|(full' & m' & Hin & Hi & ->)].
      * left. destruct (isinstance m cls); [|done]. apply elem_of_union. by left.
      * apply elem_of_cons in Hin as [[= -> ->]|Hin].
        -- left. rewrite Hi. apply elem_of_union. right. by apply elem_of_singleton.
        -- right. eauto.
Qed.

(** X12. A name is returned by [find_all_linear_names] exactly when it is
    not ['lm_head'] and is the last dotted component of the name of some
    module that is an instance of the class chosen by [bits]; no name is
    returned twice. *)
Theorem linear_names_spec {Module : Type} (isinstance : Module -> LinearClass -> bool)
    bits (named_modules : list (string * Module)) :
  NoDup (find_all_linear_names isinstance bits named_modules) /\
  forall name,
    name ∈ find_all_linear_names isinstance bits named_modules <->
    name <> "lm_head" /\
    exists full m,
      (full, m) ∈ named_modules /\ isinstance m (linear_class bits) = true /\
      name = module_leaf full.
Proof.
  unfold find_all_linear_names. split; [apply NoDup_elements|].
  intros name. rewrite elem_of_elements.
  destruct (decide ("lm_head" ∈ _)) as [Hin|Hnin].
  - rewrite elem_of_difference, elem_of_singleton, linear_names_fold.
    rewrite elem_of_empty. tauto.
  - split.
    + intros H. split; [by intros ->|].
      apply linear_names_fold in H as [H|H]; [by apply elem_of_empty in H|done].
    + intros [_ H]. apply linear_names_fold. by right.
Qed.

Lemma linear_names_spec_witness :
  "q_proj" ∈ find_all_linear_names toy_isinstance 4 toy_modules /\
  "lm_head" ∉ find_all_linear_names toy_isinstance 4 toy_modules.
Proof.
  destruct (linear_names_spec toy_isinstance 4 toy_modules) as [_ H]. split.
  - apply H. split; [done|]. exists "model.layers.0.q_proj", Linear4bit.
    split; [by left|done].
  - intros Hin. by apply H in Hin as [Hne _].
Defined.

Lemma append_assoc' (a b c : string) : (a +:+ b) +:+ c = a +:+ (b +:+ c).
Proof.
  induction a as [|x a IH]; [done|].
  change (String x ((a +:+ b) +:+ c) = String x (a +:+ (b +:+ c))). by rewrite IH.
Qed.

Lemma append_nil_r' (a : string) : a +:+ "" = a.
Proof.
  induction a as [|x a IH]; [done|].
  change (String x (a +:+ "") = String x a). by rewrite IH.
Qed.

Lemma has_char_app c (a b : string) :
  has_char c (a +:+ b) = has_char c a || has_char c b.
Proof.
  induction a as [|x a IH]; [done|].
  change (Ascii.eqb x c || has_char c (a +:+ b)
          = Ascii.eqb x c || has_char c a || has_char c b).
  by rewrite IH, orb_assoc.
Qed.

Lemma split_go_nonempty sep s : forall cur, split_go sep s cur <> [].
Proof.
  induction s as [|c rest IH]; intros cur; simpl; [done|].
  destruct (Ascii.eqb c sep); [done|apply IH].
Qed.

(** The last piece of a split is what follows the last separator. *)
Lemma split_go_last sep s : forall cur,
  has_char sep cur = false ->
  exists leaf pre,
    last (split_go sep s cur) = Some leaf /\
    has_char sep leaf = false /\
    cur +:+ s = pre +:+ leaf /\
    (pre = "" \/ exists pre', pre = pre' +:+ String sep "").
Proof.
  induction s as [|c rest IH]; intros cur Hcur; simpl.
  - exists cur, "". by rewrite append_nil_r'; eauto.
  - destruct (Ascii.eqb_spec c sep) as [->|Hc].
    + destruct (IH "" eq_refl) as (leaf & pre & Hl & Hd & Hsplit & Hpre).
      exists leaf, (cur +:+ String sep pre).
      split.
      { destruct (split_go sep rest "") eqn:E; [by apply split_go_nonempty in E|].
        exact Hl. }
      split; [done|]. change ("" +:+ rest) with rest in Hsplit. split.
      { rewrite append_assoc'.
        change (String sep pre +:+ leaf) with (String sep (pre +:+ leaf)).
        by rewrite Hsplit. }
      right. destruct Hpre as [->|[pre' ->]].
      * exists cur. done.
      * exists (cur +:+ String sep pre').
        rewrite append_assoc'. done.
    + destruct (IH (cur +:+ String c "")) as (leaf & pre & Hl & Hd & Hsplit & Hpre).
      { rewrite has_char_app, Hcur. simpl.
        by destruct (Ascii.eqb_spec c sep). }
      exists leaf, pre. split; [done|]. split; [done|]. split; [|done].
      rewrite <- Hsplit, append_assoc'. done.
Qed.

(** X13. The component [find_all_linear_names] keeps of a module name is
    the part after its last dot: it has no dot, and the name is that
    component alone or ends with a dot followed by it. *)
Theorem module_leaf_after_last_dot (name : string) :
  has_char "." (module_leaf name) = false /\
  exists pre,
    name = pre +:+ module_leaf name /\
    (pre = "" \/ exists pre', pre = pre' +:+ ".").
Proof.
  destruct (split_go_last "." name "" eq_refl) as (leaf & pre & Hl & Hd & Hsplit & Hpre).
  change ("" +:+ name) with name in Hsplit.
  assert (E : module_leaf name = leaf).
  { unfold module_leaf, str_split.
    destruct (split_go "." name "") as [|x [|y l]] eqn:El.
    - by apply split_go_nonempty in El.
    - simpl in *. by injection Hl as <-.
    - rewrite Hl. done. }
  rewrite E. split; [done|]. exists pre. split; done.
Qed.

Lemma module_leaf_after_last_dot_witness :
  has_char "." (module_leaf "model.layers.0.q_proj") = false.
Proof. exact (proj1 (module_leaf_after_last_dot "model.layers.0.q_proj")). Defined.

(** ** get_last_checkpoint *)

Lemma max_step_loop_spec fs int dir filenames : forall m0 m,
  max_step_loop fs int dir filenames m0 = Return m ->
  m0 <= m /\
  (m = m0 \/
   exists filename,
     filename ∈ filenames /\ is_checkpoint fs dir filename = true /\
     int (str_replace "checkpoint-" "" filename) = Some m) /\
  forall filename step,
    filename ∈ filenames -> is_checkpoint fs dir filename = true ->
    int (str_replace "checkpoint-" "" filename) = Some step -> step <= m.
Proof.
  induction filenames as [|f rest IH]; simpl; intros m0 m H.
  - injection H as <-. split; [lia|]. split; [by left|].
    intros filename step Hin. by apply elem_of_nil in Hin.
  - destruct (is_checkpoint fs dir f) eqn:Ec.
    + destruct (int (str_replace "checkpoint-" "" f)) as [v|] eqn:Ev; [|done].
      destruct (IH _ _ H) as (Hle & Hwho & Hmax). split; [lia|]. split.
      * destruct Hwho as [->|(f' & Hin & Hc & Hi)].
        -- destruct (Z.max_spec m0 v) as [[_ ->]|[_ ->]]; [|by left].
           right. exists f. split; [by left|done].
        -- right. exists f'. split; [by right|done].
      * intros filename step Hin Hc Hi. apply elem_of_cons in Hin as [->|Hin].
        -- rewrite Ev in Hi. injection Hi as <-. lia.
        -- by eapply Hmax.
    + destruct (IH _ _ H) as (Hle & Hwho & Hmax). split; [done|]. split.
      * destruct Hwho as [->|(f' & Hin & Hc & Hi)]; [by left|].
        right. exists f'. split; [by right|done].
      * intros filename step Hin Hc Hi. apply elem_of_cons in Hin as [->|Hin].
        -- by rewrite Ec in Hc.
        -- by eapply Hmax.
Qed.

Lemma max_step_loop_raises fs int dir filenames : forall m0 e,
  max_step_loop fs int dir filenames m0 = Throw e <->
  e = ValueError /\
  exists filename,
    filename ∈ filenames /\ is_checkpoint fs dir filename = true /\
    int (str_replace "checkpoint-" "" filename) = None.
Proof.
  induction filenames as [|f rest IH]; simpl; intros m0 e.
  - split; [done|]. intros (_ & f & Hin & _). by apply elem_of_nil in Hin.
  - destruct (is_checkpoint fs dir f) eqn:Ec.
    + destruct (int (str_replace "checkpoint-" "" f)) as [v|] eqn:Ev.
      * rewrite IH. split.
        -- intros (-> & f' & Hin & Hc & Hi). split; [done|].
           exists f'. split; [by right|done].
        -- intros (-> & f' & Hin & Hc & Hi). split; [done|].
           apply elem_of_cons in Hin as [->|Hin]; [by rewrite Ev in Hi|eauto].
      * split.
        -- intros [= <-]. split; [done|]. exists f. split; [by left|done].
        -- by intros (-> & _).
    + rewrite IH. split.
      * intros (-> & f' & Hin & Hc & Hi). split; [done|].
        exists f'. split; [by right|done].
      * intros (-> & f' & Hin & Hc & Hi). split; [done|].
        apply elem_of_cons in Hin as [->|Hin]; [by rewrite Ec in Hc|eauto].
Qed.

(** X14. When [get_last_checkpoint] returns a checkpoint, the directory
    exists and has no ['completed'] marker, the flag returned with it is
    false, and the path is the directory joined with ["checkpoint-"] and the
    decimal notation of a step that is positive, was read from the name of
    a sub-directory whose name starts with ["checkpoint"], and is the
    largest step read from such a name. The path is built from the number,
    not from the name the number was read from. *)
Theorem last_checkpoint_is_latest fs int str checkpoint_dir path completed :
  get_last_checkpoint fs int str checkpoint_dir = Return (Some path, completed) ->
  completed = false /\
  isdir fs checkpoint_dir = true /\
  path_exists fs (path_join checkpoint_dir "completed") = false /\
  exists filename max_step,
    filename ∈ listdir fs checkpoint_dir /\
    isdir fs (path_join checkpoint_dir filename) = true /\
    String.prefix "checkpoint" filename = true /\
    int (str_replace "checkpoint-" "" filename) = Some max_step /\
    0 < max_step /\
    path = path_join checkpoint_dir ("checkpoint-" +:+ str max_step) /\
    forall filename' step,
      filename' ∈ listdir fs checkpoint_dir ->
      isdir fs (path_join checkpoint_dir filename') = true ->
      String.prefix "checkpoint" filename' = true ->
      int (str_replace "checkpoint-" "" filename') = Some step ->
      step <= max_step.
Proof.
  unfold get_last_checkpoint. intros H.
  destruct (isdir fs checkpoint_dir); [|done].
  destruct (path_exists fs (path_join checkpoint_dir "completed")) eqn:Ecomp; [done|].
  destruct (max_step_loop fs int checkpoint_dir (listdir fs checkpoint_dir) 0)
    as [m|e] eqn:El; [|done].
  destruct (Z.eqb_spec m 0) as [|Hm]; [done|]. injection H as <- <-.
  destruct (max_step_loop_spec _ _ _ _ _ _ El) as (Hle & Hwho & Hmax).
  split; [done|]. split; [done|]. split; [done|].
  destruct Hwho as [->|(f & Hin & Hc & Hi)]; [done|].
  unfold is_checkpoint in Hc. apply andb_true_iff in Hc as [Hd Hp].
  exists f, m. repeat split; try done; [lia|].
  intros f' step Hin' Hd' Hp' Hi'. apply (Hmax f' step); [done| |done].
  unfold is_checkpoint. by rewrite Hd', Hp'.
Qed.

Lemma get_last_checkpoint_toy :
  get_last_checkpoint toy_fs toy_int toy_str "out"
  = Return (Some "out/checkpoint-500", false).
Proof. vm_compute. reflexivity. Qed.

Lemma last_checkpoint_is_latest_witness :
  get_last_checkpoint toy_fs toy_int toy_str "out"
    = Return (Some "out/checkpoint-500", false) /\
  isdir toy_fs "out/checkpoint-500" = false /\
  path_exists toy_fs (path_join "out" "completed") = false.
Proof.
  split; [exact get_last_checkpoint_toy|]. split; [reflexivity|].
  destruct (last_checkpoint_is_latest _ _ _ _ _ _ get_last_checkpoint_toy)
    as (_ & _ & Hc & _).
  exact Hc.
Defined.

(** X15. [get_last_checkpoint] returns [(None, False)] when the directory
    does not exist and [(None, True)] when it holds the ['completed'] marker,
    whatever else it holds; the flag is true in no other case, so a
    checkpoint is never returned for a completed run. Without the marker it
    raises [ValueError] exactly when the name of some sub-directory starting
    with ["checkpoint"] is not a number once ["checkpoint-"] is taken out,
    and it returns no checkpoint exactly when no step read is positive. *)
Theorem last_checkpoint_cases fs int str checkpoint_dir :
  (isdir fs checkpoint_dir = false ->
   get_last_checkpoint fs int str checkpoint_dir = Return (None, false)) /\
  (isdir fs checkpoint_dir = true ->
   path_exists fs (path_join checkpoint_dir "completed") = true ->
   get_last_checkpoint fs int str checkpoint_dir = Return (None, true)) /\
  (forall r,
     get_last_checkpoint fs int str checkpoint_dir = Return (r, true) ->
     r = None /\ path_exists fs (path_join checkpoint_dir "completed") = true) /\
  (isdir fs checkpoint_dir = true ->
   path_exists fs (path_join checkpoint_dir "completed") = false ->
   (forall e,
      get_last_checkpoint fs int str checkpoint_dir = Throw e <->
      e = ValueError /\
      exists filename,
        filename ∈ listdir fs checkpoint_dir /\
        is_checkpoint fs checkpoint_dir filename = true /\
        int (str_replace "checkpoint-" "" filename) = None) /\
   (get_last_checkpoint fs int str checkpoint_dir = Return (None, false) <->
    forall filename,
      filename ∈ listdir fs checkpoint_dir ->
      is_checkpoint fs checkpoint_dir filename = true ->
      exists step, int (str_replace "checkpoint-" "" filename) = Some step /\ step <= 0)).
Proof.
  unfold get_last_checkpoint.
  pose proof (max_step_loop_raises fs int checkpoint_dir (listdir fs checkpoint_dir) 0)
    as Hv.
  split; [by intros ->|]. split; [by intros -> ->|]. split.
  - intros r. destruct (isdir fs checkpoint_dir); [|done].
    destruct (path_exists fs (path_join checkpoint_dir "completed")); [by intros [= <-]|].
    destruct (max_step_loop _ _ _ _ _) as [m|e]; [|done].
    by destruct (m =? 0).
  - intros -> ->.
    destruct (max_step_loop fs int checkpoint_dir (listdir fs checkpoint_dir) 0)
      as [m|e0] eqn:El.
    + destruct (max_step_loop_spec _ _ _ _ _ _ El) as (Hle & Hwho & Hmax).
      split.
      { intros e. rewrite <- Hv. by destruct (m =? 0). }
      destruct (Z.eqb_spec m 0) as [->|Hm]; split; try done.
      * intros _ f Hin Hc.
        destruct (int (str_replace "checkpoint-" "" f)) as [step|] eqn:Ei.
        -- exists step. split; [done|]. by eapply Hmax.
        -- exfalso. assert (Hex : @Return Z 0 = Throw ValueError)
             by (apply Hv; eauto).
           done.
      * intros Hall. exfalso.
        destruct Hwho as [->|(f & Hin & Hc & Hi)]; [done|].
        destruct (Hall f Hin Hc) as (step & Hs & Hle'). rewrite Hi in Hs.
        injection Hs as <-. lia.
    + split.
      { intros e. rewrite <- Hv. split; congruence. }
      split; [done|]. intros Hall. exfalso.
      destruct (proj1 (Hv e0) eq_refl) as (_ & f & Hin & Hc & Hi).
      destruct (Hall f Hin Hc) as (step & Hs & _). by rewrite Hi in Hs.
Qed.

Lemma last_checkpoint_cases_witness :
  get_last_checkpoint toy_fs toy_int toy_str "nowhere" = Return (None, false).
Proof.
  exact (proj1 (last_checkpoint_cases toy_fs toy_int toy_str "nowhere") eq_refl).
Defined.

(** ** print_trainable_parameters *)

Lemma count_parameters_eq named_parameters : forall t a,
  count_parameters named_parameters t a
  = (t + trainable_numel named_parameters, a + total_numel named_parameters).
Proof.
  induction named_parameters as [|[numel rg] rest IH]; intros t a; simpl.
  - f_equal; lia.
  - rewrite IH. unfold trainable_numel, total_numel. simpl.
    destruct rg; f_equal; lia.
Qed.

Lemma numel_bounds named_parameters :
  0 <= trainable_numel named_parameters <= total_numel named_parameters.
Proof.
  unfold trainable_numel, total_numel.
  induction named_parameters as [|[numel rg] rest IH]; simpl; [lia|].
  destruct rg; lia.
Qed.

Lemma total_numel_zero named_parameters :
  total_numel named_parameters = 0 <-> Forall (fun p => p.1 = 0%nat) named_parameters.
Proof.
  unfold total_numel.
  induction named_parameters as [|[numel rg] rest IH]; simpl; [by split|].
  pose proof (numel_bounds rest) as Hb. unfold total_numel in Hb.
  rewrite Forall_cons. simpl. rewrite <- IH. lia.
Qed.

Lemma Qc_half_le (x : Qc) : (0 <= x)%Qc -> (x / 2 <= x)%Qc.
Proof.
  intros Hx. apply (Qcmult_le_mono_pos_r _ _ 2); [done|].
  replace (x / 2 * 2)%Qc with x by (by field).
  replace (x * 2)%Qc with (x + x)%Qc by ring.
  rewrite <- (Qcplus_0_l x) at 1. by apply Qcplus_le_mono_r.
Qed.

(** X16. [print_trainable_parameters] raises [ZeroDivisionError] exactly
    when the parameters have no element at all. Otherwise it reports the
    number of elements of all parameters, the number of elements of the
    trainable ones (halved when [bits] is 4), and their ratio in percent,
    which lies between 0 and 100 and, when [bits] is 4, is at most 50. *)
Theorem trainable_parameters_report bits named_parameters :
  (forall e,
     print_trainable_parameters bits named_parameters = Throw e <->
     e = ZeroDivisionError /\ Forall (fun p => p.1 = 0%nat) named_parameters) /\
  (forall t a pct,
     print_trainable_parameters bits named_parameters = Return (t, a, pct) ->
     a = total_numel named_parameters /\ 0 < a /\
     t = (if bits =? 4 then Qc_of_Z (trainable_numel named_parameters) / 2
          else Qc_of_Z (trainable_numel named_parameters))%Qc /\
     (pct * Qc_of_Z a = Qc_of_Z 100 * t)%Qc /\
     (0 <= pct)%Qc /\ (pct <= Qc_of_Z 100)%Qc /\
     (bits = 4 -> (pct <= Qc_of_Z 50)%Qc)).
Proof.
  unfold print_trainable_parameters.
  rewrite count_parameters_eq, !Z.add_0_l.
  pose proof (numel_bounds named_parameters) as [Ht Hta].
  set (T := trainable_numel named_parameters) in *.
  set (A := total_numel named_parameters) in *.
  split.
  - intros e. destruct (Z.eqb_spec A 0) as [HA|HA].
    + split; [intros [= <-]|by intros [-> _]].
      split; [done|]. by apply total_numel_zero.
    + split; [done|]. intros [_ Hall]. by apply total_numel_zero in Hall.
  - intros t a pct. destruct (Z.eqb_spec A 0) as [HA|HA]; [done|].
    intros [= <- <- <-].
    assert (HApos : (0 < Qc_of_Z A)%Qc).
    { rewrite <- Z2Qc_inj_0. apply (proj1 (Z2Qc_inj_lt 0 A)). lia. }
    assert (HAne : Qc_of_Z A <> 0%Qc) by (by apply not_symmetry, Qclt_not_eq).
    assert (HT0 : (0 <= Qc_of_Z T)%Qc).
    { rewrite <- Z2Qc_inj_0. by apply (proj1 (Z2Qc_inj_le _ _)). }
    assert (HTA : (Qc_of_Z T <= Qc_of_Z A)%Qc) by (by apply (proj1 (Z2Qc_inj_le _ _))).
    assert (H100 : (0 <= Qc_of_Z 100)%Qc).
    { rewrite <- Z2Qc_inj_0. by apply (proj1 (Z2Qc_inj_le _ _)). }
    set (t := (if bits =? 4 then Qc_of_Z T / 2 else Qc_of_Z T)%Qc).
    assert (Ht0 : (0 <= t)%Qc).
    { unfold t. destruct (bits =? 4); [|done].
      apply (Qcmult_le_mono_pos_r _ _ 2); [done|].
      replace (Qc_of_Z T / 2 * 2)%Qc with (Qc_of_Z T) by (by field).
      by rewrite Qcmult_0_l. }
    assert (HtA : (t <= Qc_of_Z A)%Qc).
    { unfold t. destruct (bits =? 4); [|done].
      eapply Qcle_trans; [by apply Qc_half_le|done]. }
    assert (Hpct : (Qc_of_Z 100 * t / Qc_of_Z A * Qc_of_Z A = Qc_of_Z 100 * t)%Qc)
      by (by field).
    split; [lia|]. split; [lia|]. split; [done|]. split; [exact Hpct|].
    split; [|split].
    + apply (Qcmult_le_mono_pos_r _ _ (Qc_of_Z A)); [done|].
      rewrite Hpct, Qcmult_0_l. by apply Qcmult_nonneg_nonneg.
    + apply (Qcmult_le_mono_pos_r _ _ (Qc_of_Z A)); [done|].
      rewrite Hpct. by apply Qcmult_le_mono_nonneg_l.
    + intros ->. apply (Qcmult_le_mono_pos_r _ _ (Qc_of_Z A)); [done|].
      rewrite Hpct. unfold t. simpl.
      replace (Qc_of_Z 100 * (Qc_of_Z T / 2))%Qc with (Qc_of_Z 50 * Qc_of_Z T)%Qc.
      * apply Qcmult_le_mono_nonneg_l; [|done].
        rewrite <- Z2Qc_inj_0. by apply (proj1 (Z2Qc_inj_le _ _)).
      * replace (Qc_of_Z 100) with (Qc_of_Z 50 * 2)%Qc; [by field|].
        by apply Qc_is_canon.
Qed.

Lemma trainable_parameters_report_witness :
  print_trainable_parameters 4 [(0%nat, true); (0%nat, false)] = Throw ZeroDivisionError.
Proof.
  apply (proj1 (trainable_parameters_report 4 [(0%nat, true); (0%nat, false)])).
  split; [done|]. by repeat constructor.
Defined.

(** ** The context history, turn by turn *)

Lemma context_turns_content strip ctx i t :
  make_context_turns strip ctx !! i = Some t ->
  role t = (if Nat.even i then "user" else "assistant") /\ content t <> "".
Proof.
  intros H. split; [by eapply context_turns_role|].
  unfold make_context_turns in H.
  apply list_lookup_imap_Some in H as (piece & Hp & ->).
  apply list_elem_of_lookup_2, list_elem_of_filter in Hp as [Hne _].
  by destruct (Nat.even i).
Qed.

(** X17. [make_context_history] raises [IndexError] exactly when the
    context has no piece that is non-empty after [strip]. Otherwise the
    history consists of whole exchanges: its length is even, the turns at
    even positions are user turns and those at odd positions assistant
    turns, and no turn has an empty content. *)
Theorem context_history_exchanges strip ctx :
  (make_context_history strip ctx = Raise IndexError <->
   make_context_turns strip ctx = []) /\
  (forall e, make_context_history strip ctx = Raise e -> e = IndexError) /\
  (forall h,
     make_context_history strip ctx = Ok h ->
     Nat.even (length h) = true /\
     forall i t, h !! i = Some t ->
       role t = (if Nat.even i then "user" else "assistant") /\ content t <> "").
Proof.
  unfold make_context_history.
  destruct (last (make_context_turns strip ctx)) as [t|] eqn:Hlast.
  - pose proof Hlast as Hl. apply last_Some in Hl as [l' Hl'].
    assert (Hne : make_context_turns strip ctx <> []) by (rewrite Hl'; by destruct l').
    assert (Hrole : role t = if Nat.even (length l') then "user" else "assistant").
    { apply (context_turns_role strip ctx). rewrite Hl'.
      by rewrite lookup_app_r, Nat.sub_diag. }
    split; [by destruct (role t =? "user")%string|].
    split; [by destruct (role t =? "user")%string|].
    intros h. destruct (String.eqb_spec (role t) "user") as [Hu|Hu]; intros [= <-].
    + rewrite Hl', take_all_but_last. split.
      * destruct (Nat.even (length l')); [done|]. by rewrite Hrole in Hu.
      * intros i t' Hi. apply (context_turns_content strip ctx).
        rewrite Hl'. by apply lookup_app_l_Some.
    + split; [|intros i t' Hi; by eapply context_turns_content].
      rewrite Hl', length_app. simpl.
      replace (length l' + 1)%nat with (S (length l')) by lia.
      rewrite Nat.even_succ, <- Nat.negb_even.
      destruct (Nat.even (length l')); [by rewrite Hrole in Hu|done].
  - apply last_None in Hlast. split; [done|]. split; [by intros e [= <-]|done].
Qed.

Lemma context_history_exchanges_witness :
  make_context_history strip_ascii "   " = Raise IndexError.
Proof.
  apply (proj1 (context_history_exchanges strip_ascii "   ")). reflexivity.
Defined.

(** ** Saving and resuming *)

(** X18. When [get_last_checkpoint] finds a checkpoint in the output
    directory, the directory [get_accelerate_model] loads the adapter from
    is the one [save_model] wrote it to at the largest step read from the
    checkpoint names, provided no best checkpoint was recorded then. *)
Theorem resume_reads_saved_adapter fs int str output_dir checkpoint_dir completed :
  get_last_checkpoint fs int str output_dir = Return (Some checkpoint_dir, completed) ->
  exists filename max_step,
    filename ∈ listdir fs output_dir /\
    is_checkpoint fs output_dir filename = true /\
    int (str_replace "checkpoint-" "" filename) = Some max_step /\
    adapter_load_path checkpoint_dir = peft_model_path str None output_dir max_step.
Proof.
  unfold get_last_checkpoint. intros H.
  destruct (isdir fs output_dir); [|done].
  destruct (path_exists fs (path_join output_dir "completed")); [done|].
  destruct (max_step_loop fs int output_dir (listdir fs output_dir) 0)
    as [m|e] eqn:El; [|done].
  destruct (Z.eqb_spec m 0) as [|Hm]; [done|]. injection H as <- <-.
  destruct (max_step_loop_spec _ _ _ _ _ _ El) as (_ & [->|(f & Hin & Hc & Hi)] & _);
    [done|].
  exists f, m. split; [done|]. split; [done|]. split; [done|]. reflexivity.
Qed.

Lemma resume_reads_saved_adapter_witness :
  adapter_load_path "out/checkpoint-500" = "out/checkpoint-500/adapter_model" /\
  exists filename max_step,
    filename ∈ listdir toy_fs "out" /\
    adapter_load_path "out/checkpoint-500" = peft_model_path toy_str None "out" max_step.
Proof.
  split; [reflexivity|].
  destruct (resume_reads_saved_adapter _ _ _ _ _ _ get_last_checkpoint_toy)
    as (f & m & Hin & _ & _ & Hp).
  by exists f, m.
Defined.
